(** * madns: the DNS request dispatcher of [main.go]

    A shallow embedding of [handleDNS], [handleRedirect] and
    [handleRespond], and of the library functions they call, followed by
    the properties of the dispatcher: policy matching, action priority,
    the round-robin rebind counter, the forward-with-retry path and the
    answer synthesizer.

    Go strings are byte strings: they are modelled by [string], whose
    characters are the 256 values of [ascii].  A [map] is a [gmap]; the
    order in which a [range] loop visits it is not fixed by the language
    and is therefore an explicit argument of the model. *)

From Stdlib Require Import ZArith Ascii String List Lia.
From stdpp Require Import base option list gmap strings.

Local Open Scope Z_scope.

(** ** Library functions used by the dispatcher *)

(** *** Package [strings] *)

Module Strings.

(** [s[n:]] *)
Fixpoint drop (n : nat) (s : string) : string :=
  match n, s with
  | O, _ => s
  | S n', String _ s' => drop n' s'
  | S _, EmptyString => EmptyString
  end.

(** [s[:n]] *)
Fixpoint take (n : nat) (s : string) : string :=
  match n, s with
  | O, _ => EmptyString
  | S n', String c s' => String c (take n' s')
  | S _, EmptyString => EmptyString
  end.

(** [strings.HasSuffix]:
    [len(s) >= len(suffix) && s[len(s)-len(suffix):] == suffix]. *)
Definition HasSuffix (s suffix : string) : bool :=
  (String.length suffix <=? String.length s)%nat
  && String.eqb (drop (String.length s - String.length suffix) s) suffix.

(** [strings.TrimSuffix]: the suffix is removed once, when present. *)
Definition TrimSuffix (s suffix : string) : string :=
  if HasSuffix s suffix
  then take (String.length s - String.length suffix) s
  else s.

Definition isUpper (c : ascii) : bool :=
  (65 <=? nat_of_ascii c)%nat && (nat_of_ascii c <=? 90)%nat.

Definition lowerByte (c : ascii) : ascii :=
  if isUpper c then ascii_of_nat (nat_of_ascii c + 32) else c.

(** The test [c < utf8.RuneSelf] of every byte, by which
    [strings.ToLower] recognises an ASCII string. *)
Fixpoint isASCII (s : string) : bool :=
  match s with
  | EmptyString => true
  | String c s' => (nat_of_ascii c <? 128)%nat && isASCII s'
  end.

(** [strings.ToLower] on ASCII strings, where it maps ['A'..'Z'] to
    ['a'..'z'] and keeps every other byte.  On a string that is not ASCII
    the function of Go maps every Unicode letter and replaces invalid
    UTF-8, which this definition does not follow: it is the function of Go
    on the strings that satisfy [isASCII] only, and what is stated of the
    lower case of names and keys is stated of ASCII names and keys. *)
Fixpoint ToLower (s : string) : string :=
  match s with
  | EmptyString => EmptyString
  | String c s' => String (lowerByte c) (ToLower s')
  end.

End Strings.

(** *** Package [dns]: names *)

Module Dns.

Definition backslash : ascii := ascii_of_nat 92.

(** Number of backslashes at the head of a (reversed) name. *)
Fixpoint escapes (r : list ascii) : nat :=
  match r with
  | c :: r' => if Ascii.eqb c backslash then S (escapes r') else O
  | [] => O
  end.

(** [dns.IsFqdn] on ASCII names: the name ends in a dot that is not
    escaped, that is, one preceded by an even number of backslashes.  (The
    library counts the backslashes from the index of a rune, and its count
    differs from this one after a rune of several bytes.) *)
Definition IsFqdn (s : string) : bool :=
  match rev (list_ascii_of_string s) with
  | c :: r => Ascii.eqb c "."%char && Nat.even (escapes r)
  | [] => false
  end.

(** [dns.Fqdn] *)
Definition Fqdn (s : string) : string :=
  if IsFqdn s then s else (s +:+ ".")%string.

End Dns.

(** *** Package [net]: IP literals

    [net.ParseIP] (Go 1.21, which [log/slog] requires) parses with
    [netip.ParseAddr], rejects zones, and returns the 16-byte form of the
    address: an IPv4 address comes back IPv4-mapped.  Bytes are integers
    in [0, 255]. *)

Module Net.

Definition IP := list Z.

Definition code (c : ascii) : Z := Z.of_nat (nat_of_ascii c).

Definition isDigit (c : ascii) : bool := (48 <=? code c) && (code c <=? 57).

(** [netip.parseIPv4]: the loop over the bytes of [s].  [prev] is
    [s[i-1]] ([None] at [i = 0]), [fields] holds the [pos] octets read so
    far, [val] and [digLen] describe the octet being read. *)
Fixpoint parseIPv4_loop (s : list ascii) (prev : option ascii)
    (fields : list Z) (val : Z) (digLen : nat) : option (list Z) :=
  match s with
  | [] => if (length fields <? 3)%nat then None else Some (fields ++ [val])
  | c :: s' =>
      if isDigit c then
        if (digLen =? 1)%nat && (val =? 0) then None
        else
          let val' := val * 10 + (code c - 48) in
          if 255 <? val' then None
          else parseIPv4_loop s' (Some c) fields val' (S digLen)
      else if Ascii.eqb c "."%char then
        match prev, s' with
        | None, _ => None
        | _, [] => None
        | Some p, _ =>
            if Ascii.eqb p "."%char then None
            else if (length fields =? 3)%nat then None
            else parseIPv4_loop s' (Some c) (fields ++ [val]) 0 O
        end
      else None
  end.

Definition parseIPv4 (s : list ascii) : option (list Z) :=
  parseIPv4_loop s None [] 0 O.

Definition hexVal (c : ascii) : option Z :=
  if isDigit c then Some (code c - 48)
  else if (97 <=? code c) && (code c <=? 102) then Some (code c - 97 + 10)
  else if (65 <=? code c) && (code c <=? 70) then Some (code c - 65 + 10)
  else None.

(** The inner loop of [netip.parseIPv6]: one group of hexadecimal
    digits.  Returns the number of digits, their value and what follows
    them. *)
Fixpoint hexGroup (s : list ascii) (off : nat) (acc : Z)
    : option (nat * Z * list ascii) :=
  match s with
  | [] => Some (off, acc, [])
  | c :: s' =>
      match hexVal c with
      | None => Some (off, acc, s)
      | Some d =>
          let acc' := acc * 16 + d in
          if (3 <? off)%nat then None
          else if 65535 <? acc' then None
          else hexGroup s' (S off) acc'
      end
  end.

(** The outer loop of [netip.parseIPv6].  [ip] holds the [i] bytes
    written so far; the result is the state at the exit of the loop.
    [fuel] bounds the number of rounds, each of which writes at least two
    bytes. *)
Fixpoint parseIPv6_loop (fuel : nat) (ip : list Z) (ellipsis : option nat)
    (s : list ascii) : option (list Z * option nat * list ascii) :=
  match fuel with
  | O => Some (ip, ellipsis, s)
  | S fuel' =>
      if (16 <=? length ip)%nat then Some (ip, ellipsis, s)
      else
        match hexGroup s O 0 with
        | None => None
        | Some (O, _, _) => None
        | Some (_, acc, rest) =>
            match rest with
            | [] => Some (ip ++ [Z.shiftr acc 8; Z.land acc 255], ellipsis, [])
            | c :: rest' =>
                if Ascii.eqb c "."%char then
                  if bool_decide (ellipsis = None) && negb (length ip =? 12)%nat
                  then None
                  else if (16 <? length ip + 4)%nat then None
                  else
                    match parseIPv4 s with
                    | None => None
                    | Some ip4 => Some (ip ++ ip4, ellipsis, [])
                    end
                else
                  let ip' := ip ++ [Z.shiftr acc 8; Z.land acc 255] in
                  if negb (Ascii.eqb c ":"%char) then None
                  else
                    match rest' with
                    | [] => None
                    | c' :: rest'' =>
                        if Ascii.eqb c' ":"%char then
                          match ellipsis with
                          | Some _ => None
                          | None =>
                              match rest'' with
                              | [] => Some (ip', Some (length ip'), [])
                              | _ => parseIPv6_loop fuel' ip' (Some (length ip')) rest''
                              end
                          end
                        else parseIPv6_loop fuel' ip' ellipsis rest'
                    end
            end
        end
  end.

Fixpoint splitZone (s : list ascii) : list ascii * option (list ascii) :=
  match s with
  | [] => ([], None)
  | c :: s' =>
      if Ascii.eqb c "%"%char then ([], Some s')
      else let '(a, z) := splitZone s' in (c :: a, z)
  end.

(** [netip.parseIPv6]: the address and its zone. *)
Definition parseIPv6 (input : list ascii) : option (list Z * list ascii) :=
  let '(s, z) := splitZone input in
  match z with
  | Some [] => None
  | _ =>
      let zone := default [] z in
      let start :=
        match s with
        | c1 :: c2 :: s' =>
            if Ascii.eqb c1 ":"%char && Ascii.eqb c2 ":"%char
            then (Some O, s') else (None, s)
        | _ => (None, s)
        end in
      match start with
      | (Some _, []) => Some (replicate 16 0, zone)
      | (ellipsis, s0) =>
          match parseIPv6_loop 9 [] ellipsis s0 with
          | None => None
          | Some (_, _, _ :: _) => None
          | Some (ip, ell, []) =>
              if (length ip <? 16)%nat then
                match ell with
                | None => None
                | Some e =>
                    Some (firstn e ip ++ replicate (16 - length ip) 0 ++ skipn e ip,
                          zone)
                end
              else
                match ell with
                | Some _ => None
                | None => Some (ip, zone)
                end
          end
      end
  end.

Definition v4InV6Prefix : list Z := [0; 0; 0; 0; 0; 0; 0; 0; 0; 0; 255; 255].

(** [netip.ParseAddr] followed by [As16]: the first of ['.'], [':'] and
    ['%'] in [s] chooses the parser. *)
Fixpoint ParseAddr_scan (whole s : list ascii) : option (list Z * list ascii) :=
  match s with
  | [] => None
  | c :: s' =>
      if Ascii.eqb c "."%char then
        ip4 ← parseIPv4 whole; Some (v4InV6Prefix ++ ip4, [])
      else if Ascii.eqb c ":"%char then parseIPv6 whole
      else if Ascii.eqb c "%"%char then None
      else ParseAddr_scan whole s'
  end.

(** [net.ParseIP]: [None] is the nil slice. *)
Definition ParseIP (s : string) : option IP :=
  let l := list_ascii_of_string s in
  match ParseAddr_scan l l with
  | Some (ip, []) => Some ip
  | _ => None
  end.

Definition isZeros (p : list Z) : bool := forallb (Z.eqb 0) p.

(** [IP.To4]: the 4-byte form of an IPv4 address, held in 4 bytes or
    IPv4-mapped in 16; [None] (nil) for any other address. *)
Definition To4 (ip : IP) : option IP :=
  if (length ip =? 4)%nat then Some ip
  else if (length ip =? 16)%nat && isZeros (firstn 10 ip)
          && bool_decide (ip !! 10%nat = Some 255)
          && bool_decide (ip !! 11%nat = Some 255)
  then Some (skipn 12 ip)
  else None.

End Net.

(** ** Data model *)

(** *** DNS messages (package [dns]) *)

Record DnsQuestion := { Name : string; Qtype : Z; Qclass : Z }.

Record RR_Header := { HName : string; Rrtype : Z; Class : Z; Ttl : Z }.

(** The three record types the dispatcher builds. *)
Inductive RR :=
  | RR_CNAME (Hdr : RR_Header) (Target : string)
  | RR_AAAA (Hdr : RR_Header) (AAAA : Net.IP)
  | RR_A (Hdr : RR_Header) (A : Net.IP).

Definition Header (rr : RR) : RR_Header :=
  match rr with RR_CNAME h _ | RR_AAAA h _ | RR_A h _ => h end.

Definition TypeA : Z := 1.
Definition TypeCNAME : Z := 5.
Definition TypeAAAA : Z := 28.
Definition ClassINET : Z := 1.
Definition OpcodeQuery : Z := 0.
Definition RcodeSuccess : Z := 0.
Definition RcodeServerFailure : Z := 2.

(** [dns.Msg].  An entry of [Answer] is an interface value: [None] is the
    nil of a slot that [make] created and nothing filled. *)
Record Msg := {
  Id : Z;
  Response : bool;
  Opcode : Z;
  RecursionDesired : bool;
  CheckingDisabled : bool;
  Rcode : Z;
  Compress : bool;
  Question : list DnsQuestion;
  Answer : list (option RR)
}.

(** [new(dns.Msg)] *)
Definition newMsg : Msg :=
  {| Id := 0; Response := false; Opcode := 0; RecursionDesired := false;
     CheckingDisabled := false; Rcode := 0; Compress := false;
     Question := []; Answer := [] |}.

(** [m.SetReply(request)] *)
Definition SetReply (m request : Msg) : Msg :=
  {| Id := Id request;
     Response := true;
     Opcode := Opcode request;
     RecursionDesired :=
       if Opcode request =? OpcodeQuery then RecursionDesired request
       else RecursionDesired m;
     CheckingDisabled :=
       if Opcode request =? OpcodeQuery then CheckingDisabled request
       else CheckingDisabled m;
     Rcode := RcodeSuccess;
     Compress := Compress m;
     Question :=
       match Question request with
       | q :: _ => [q]
       | [] => Question m
       end;
     Answer := Answer m |}.

Definition withRcode (m : Msg) (rcode : Z) : Msg :=
  {| Id := Id m; Response := Response m; Opcode := Opcode m;
     RecursionDesired := RecursionDesired m;
     CheckingDisabled := CheckingDisabled m;
     Rcode := rcode; Compress := Compress m;
     Question := Question m; Answer := Answer m |}.

(** [m.SetRcode(request, rcode)]: [SetReply], then the status. *)
Definition SetRcode (m request : Msg) (rcode : Z) : Msg :=
  withRcode (SetReply m request) rcode.

Definition withCompress (m : Msg) (b : bool) : Msg :=
  {| Id := Id m; Response := Response m; Opcode := Opcode m;
     RecursionDesired := RecursionDesired m;
     CheckingDisabled := CheckingDisabled m;
     Rcode := Rcode m; Compress := b;
     Question := Question m; Answer := Answer m |}.

Definition withAnswer (m : Msg) (a : list (option RR)) : Msg :=
  {| Id := Id m; Response := Response m; Opcode := Opcode m;
     RecursionDesired := RecursionDesired m;
     CheckingDisabled := CheckingDisabled m;
     Rcode := Rcode m; Compress := Compress m;
     Question := Question m; Answer := a |}.

(** *** Configuration *)

Record MadnsRebindConfig := { Addrs : list string }.

Record MadnsSubConfig := {
  Redirect : string;
  NotifyEmail : string;
  Respond : string;
  NotifySlack : string;
  Rebind : option MadnsRebindConfig
}.

Record MadnsConfig := {
  SMTPUser : string;
  SMTPPassword : string;
  SMTPServer : string;
  SMTPDelay : Z;
  Port : Z;
  Handlers : gmap string MadnsSubConfig
}.

(** *** The client connection *)

(** [w.RemoteAddr()]: the address of a client of the TCP listener or of
    the UDP listener.  The dispatcher asks whether it is a
    [*net.TCPAddr]. *)
Inductive Addr :=
  | TCPAddr (s : string)
  | UDPAddr (s : string).

Definition AddrString (a : Addr) : string :=
  match a with TCPAddr s | UDPAddr s => s end.

Definition AddrNetwork (a : Addr) : string :=
  match a with TCPAddr _ => "tcp" | UDPAddr _ => "udp" end.

Record ResponseWriter := { RemoteAddr : Addr }.

(** ** Effects *)

(** Text whose rendering belongs to a library is kept symbolic:
    [Quoted e] is the error [e] under the verb [%q], [MsgString m] is
    [m.String()]. *)
Inductive chunk :=
  | Text (s : string)
  | Quoted (e : string)
  | MsgString (m : Msg).

Inductive Level := LDebug | LInfo | LWarn | LError.

(** What a dispatch does to the outside, in order. *)
Inductive Event :=
  | EvLog (lvl : Level) (msg : list chunk)
  | EvExchange (net : string) (req : Msg) (addr : string)
  | EvWriteMsg (m : Msg)
  | EvEmail (dest : string) (body : list chunk)
  | EvSlack (dest : string) (body : list chunk).

(** The result of [dnsClient.Exchange]: the reply when [err == nil], the
    error otherwise. *)
Inductive ExchangeResult :=
  | ExchOk (r : Msg)
  | ExchErr (e : string).

(** The state a dispatch runs in: the global [RebindMap] (the value of a
    key is the value of its [atomic.Uint64]), the upstream server (its
    answer to the [n]-th exchange of the run), the number of exchanges
    made and the events so far. *)
Record World := {
  RebindMap : gmap string Z;
  upstream : nat -> ExchangeResult;
  exchanges : nat;
  trace : list Event
}.

(** Computations that read and write the [World] and may panic
    ([None]). *)
Definition M (T : Type) : Type := World -> option (T * World).

Definition ret {T} (x : T) : M T := fun s => Some (x, s).

Definition bind {T U} (c : M T) (k : T -> M U) : M U :=
  fun s => match c s with
           | Some (x, s') => k x s'
           | None => None
           end.

Definition panic {T} : M T := fun _ => None.

Declare Scope go_scope.
Delimit Scope go_scope with go.
Notation "x <~ c ;; k" := (bind c (fun x => k))
  (at level 100, c at next level, right associativity) : go_scope.
Notation "c ;;; k" := (bind c (fun _ => k))
  (at level 100, right associativity) : go_scope.

Definition emit (e : Event) : M unit :=
  fun s => Some (tt, {| RebindMap := RebindMap s; upstream := upstream s;
                        exchanges := exchanges s; trace := trace s ++ [e] |}).

Definition slogDebug (msg : list chunk) : M unit := emit (EvLog LDebug msg).
Definition slogInfo (msg : list chunk) : M unit := emit (EvLog LInfo msg).
Definition slogWarn (msg : list chunk) : M unit := emit (EvLog LWarn msg).

(** [w.WriteMsg(m)] *)
Definition WriteMsg (w : ResponseWriter) (m : Msg) : M unit := emit (EvWriteMsg m).

(** [dnsClient.Exchange(req, addr)] over the network [net]. *)
Definition Exchange (net : string) (req : Msg) (addr : string) : M ExchangeResult :=
  fun s => Some (upstream s (exchanges s),
                 {| RebindMap := RebindMap s; upstream := upstream s;
                    exchanges := S (exchanges s);
                    trace := trace s ++ [EvExchange net req addr] |}).

(** Modelled from the spec: [debouncedSendEmail], which is defined outside
    [main.go].  The spec makes it the Notifier's operation
    [notifyEmail(destination, body)], a request whose delivery, debouncing
    included, is the Notifier's own: a call is recorded as an event. *)
Definition debouncedSendEmail (dest : string) (body : list chunk)
    (config : MadnsConfig) : M unit := emit (EvEmail dest body).

(** Modelled from the spec: [sendSlackMessage], which is defined outside
    [main.go]; the Notifier's operation [notifySlack(destination, body)],
    recorded as an event in the same way. *)
Definition sendSlackMessage (dest : string) (body : list chunk) : M unit :=
  emit (EvSlack dest body).

(** Arithmetic of [uint64]. *)
Definition wrap64 (z : Z) : Z := z mod 2 ^ 64.

(** [RebindMap.LoadOrStore(ck, &atomic.Uint64{})] followed by
    [ctr.Add(1)]: the counter of [ck], created at 0 when absent, is
    incremented and its new value returned. *)
Definition counterAdd1 (ck : string) : M Z :=
  fun s =>
    let ctr := default 0 (RebindMap s !! ck) in
    let new := wrap64 (ctr + 1) in
    Some (new, {| RebindMap := <[ck := new]> (RebindMap s);
                  upstream := upstream s; exchanges := exchanges s;
                  trace := trace s |}).

Definition liftOpt {T} (o : option T) : M T :=
  fun s => match o with Some x => Some (x, s) | None => None end.

Definition nl : string := String (ascii_of_nat 10) EmptyString.

Local Open Scope go_scope.

(** ** The dispatcher *)

(** *** [handleRespond] *)

(** The record built for one question: the body of the loop. *)
Definition answerFor (q : DnsQuestion) (respond : string) : RR :=
  match Net.ParseIP respond with
  | None =>
      RR_CNAME {| HName := Name q; Rrtype := TypeCNAME; Class := ClassINET; Ttl := 0 |}
               (Strings.TrimSuffix respond "." +:+ ".")
  | Some ip =>
      match Net.To4 ip with
      | None =>
          RR_AAAA {| HName := Name q; Rrtype := TypeAAAA; Class := ClassINET; Ttl := 0 |} ip
      | Some _ =>
          RR_A {| HName := Name q; Rrtype := TypeA; Class := ClassINET; Ttl := 0 |} ip
      end
  end.

(** [m.Answer[i] = rr]: an index out of range panics. *)
Definition setAnswer (answer : list (option RR)) (i : nat) (rr : RR)
    : M (list (option RR)) :=
  if (i <? length answer)%nat then ret (<[i := Some rr]> answer) else panic.

(** [for i := range req.Question], from index [i] on, [qs] being
    [req.Question[i:]]. *)
Fixpoint respondLoop (qs : list DnsQuestion) (i : nat) (respond : string)
    (answer : list (option RR)) : M (list (option RR)) :=
  match qs with
  | [] => ret answer
  | q :: qs' =>
      slogInfo [Text ("Responding to " +:+ Name q +:+ " with " +:+ respond)] ;;;
      answer' <~ setAnswer answer i (answerFor q respond) ;;
      respondLoop qs' (S i) respond answer'
  end.

Definition handleRespond (w : ResponseWriter) (req : Msg) (respond : string) : M unit :=
  let m := SetRcode (SetReply newMsg req) req RcodeSuccess in
  answer <~ respondLoop (Question req) O respond
              (replicate (length (Question req)) None) ;;
  WriteMsg w (withAnswer m answer).

(** *** [handleRedirect] *)

(** The reply of both failure paths: [SetReply], then
    [SetRcode(req, dns.RcodeServerFailure)]. *)
Definition serverFailure (req : Msg) : Msg :=
  SetRcode (SetReply newMsg req) req RcodeServerFailure.

(** The code from the label [retry] on, with [retries] retries left. *)
Fixpoint redirectFrom (retries : nat) (net : string) (w : ResponseWriter)
    (req : Msg) (redirect : string) : M unit :=
  r <~ Exchange net req redirect ;;
  match r with
  | ExchOk r => WriteMsg w (withCompress r true)
  | ExchErr err =>
      match retries with
      | S retries' =>
          slogDebug [Text "retrying..."] ;;;
          redirectFrom retries' net w req redirect
      | O =>
          slogWarn [Text "failure to forward request "; Quoted err; Text nl] ;;;
          WriteMsg w (serverFailure req)
      end
  end.

Definition clientNet (w : ResponseWriter) : string :=
  match RemoteAddr w with TCPAddr _ => "tcp" | UDPAddr _ => "udp" end.

Definition handleRedirect (w : ResponseWriter) (req : Msg) (redirect : string) : M unit :=
  slogInfo [Text ("redirecting using protocol: " +:+ clientNet w)] ;;;
  redirectFrom 1 (clientNet w) w req redirect.

(** *** [handleDNS] *)

(** The test of line 116 for the name of the first question and the
    key [k]. *)
Definition keyMatches (reqName k : string) : bool :=
  let reqFqdn := Strings.ToLower reqName in
  let handlerFqdn := Strings.ToLower (Dns.Fqdn k) in
  String.eqb reqFqdn handlerFqdn
  || Strings.HasSuffix reqFqdn ("." +:+ handlerFqdn).

(** The [range] loop over [config.Handlers], visiting the entries in the
    order [order].  The outer [None] is the panic of [req.Question[0]] on
    an empty question section; [Some None] is [processThis == false]. *)
Fixpoint rangeHandlers (order : list (string * MadnsSubConfig)) (req : Msg)
    : option (option (string * MadnsSubConfig)) :=
  match order with
  | [] => Some None
  | (k, v) :: rest =>
      if String.eqb k "." then rangeHandlers rest req
      else
        match Question req with
        | [] => None
        | q0 :: _ =>
            if keyMatches (Name q0) k then Some (Some (k, v))
            else rangeHandlers rest req
        end
  end.

(** "DETERMINE WHICH CONFIG APPLIES": the loop, then the default
    handler. *)
Definition determineConfig (config : MadnsConfig)
    (order : list (string * MadnsSubConfig)) (req : Msg)
    : option (option (string * MadnsSubConfig)) :=
  match rangeHandlers order req with
  | None => None
  | Some (Some kv) => Some (Some kv)
  | Some None =>
      match Handlers config !! "."%string with
      | Some cnf => Some (Some ("."%string, cnf))
      | None => Some None
      end
  end.

Definition nonEmpty (s : string) : bool := (0 <? String.length s)%nat.

(** The index of line 151: [(ctr.Add(1) - 1) % uint64(len(rc.Addrs))],
    [new] being the value [ctr.Add(1)] returned. *)
Definition rebindIndex (new : Z) (len : nat) : Z :=
  wrap64 (new - 1) mod Z.of_nat len.

(** Lines 140 to 153: redirect, respond or rebind. *)
Definition act (w : ResponseWriter) (req : Msg) (ck : string)
    (c : MadnsSubConfig) : M unit :=
  if nonEmpty (Redirect c) then handleRedirect w req (Redirect c)
  else if nonEmpty (Respond c) then handleRespond w req (Respond c)
  else
    match Rebind c with
    | Some rc =>
        if (0 <? length (Addrs rc))%nat then
          new <~ counterAdd1 ck ;;
          respond <~ liftOpt (Addrs rc !! Z.to_nat (rebindIndex new (length (Addrs rc)))) ;;
          handleRespond w req respond
        else ret tt
    | None => ret tt
    end.

Definition notifyBody (w : ResponseWriter) (req : Msg) : list chunk :=
  [Text ("source: " +:+ AddrString (RemoteAddr w) +:+ nl
         +:+ "proto: " +:+ AddrNetwork (RemoteAddr w) +:+ nl
         +:+ "request:" +:+ nl);
   MsgString req;
   Text (nl +:+ nl)].

(** Lines 155 to 167: the notifications. *)
Definition notify (w : ResponseWriter) (req : Msg) (c : MadnsSubConfig)
    (config : MadnsConfig) : M unit :=
  let body := notifyBody w req in
  (if nonEmpty (NotifyEmail c) then debouncedSendEmail (NotifyEmail c) body config
   else ret tt) ;;;
  (if nonEmpty (NotifySlack c) then sendSlackMessage (NotifySlack c) body
   else ret tt).

(** [handleDNS].  [order] lists the entries of [config.Handlers] in the
    order in which this call's [range] loop visits them. *)
Definition handleDNS (w : ResponseWriter) (req : Msg) (config : MadnsConfig)
    (order : list (string * MadnsSubConfig)) : M unit :=
  found <~ liftOpt (determineConfig config order req) ;;
  match found with
  | None =>
      q0 <~ liftOpt (head (Question req)) ;;
      slogWarn [Text ("no handler for domain: " +:+ Name q0)] ;;;
      WriteMsg w (serverFailure req)
  | Some (ck, c) =>
      act w req ck c ;;;
      notify w req c config
  end.

(** An order in which a [range] loop may visit the map: every entry
    once. *)
Definition rangeOrder (config : MadnsConfig)
    (order : list (string * MadnsSubConfig)) : Prop :=
  order ≡ₚ map_to_list (Handlers config).

(** The keys of the handlers and the names queried are ASCII, as domain
    names in presentation format are: the strings on which [ToLower] and
    [IsFqdn] are those of the libraries. *)
Definition asciiNames (config : MadnsConfig) (req : Msg) : Prop :=
  (forall k v, Handlers config !! k = Some v -> Strings.isASCII k = true)
  /\ (forall q, q ∈ Question req -> Strings.isASCII (Name q) = true).

(** ** What a run leaves behind

    The vocabulary of the statements below: the state after given
    events, the replies among events, and the events of each handler in
    closed form. *)

(** [s] after the events [evs]. *)
Definition after (s : World) (evs : list Event) : World :=
  {| RebindMap := RebindMap s; upstream := upstream s;
     exchanges := exchanges s; trace := trace s ++ evs |}.

(** The replies written to the client among the events. *)
Definition written (evs : list Event) : list Msg :=
  omap (fun e => match e with EvWriteMsg m => Some m | _ => None end) evs.

(** The upstream exchanges among the events. *)
Definition exchanged (evs : list Event) : list Event :=
  List.filter (fun e => match e with EvExchange _ _ _ => true | _ => false end) evs.

(** The notifications among the events. *)
Definition notified (evs : list Event) : list Event :=
  List.filter (fun e => match e with EvEmail _ _ | EvSlack _ _ => true | _ => false end) evs.

Definition respondLog (q : DnsQuestion) (respond : string) : Event :=
  EvLog LInfo [Text ("Responding to " +:+ Name q +:+ " with " +:+ respond)].

(** The reply [handleRespond] writes: one record per question. *)
Definition respondMsg (req : Msg) (respond : string) : Msg :=
  withAnswer (SetRcode (SetReply newMsg req) req RcodeSuccess)
             (map (fun q => Some (answerFor q respond)) (Question req)).

Definition respondEvents (req : Msg) (respond : string) : list Event :=
  map (fun q => respondLog q respond) (Question req)
  ++ [EvWriteMsg (respondMsg req respond)].

(** [s] after [n] more exchanges and the events [evs]. *)
Definition afterExchanges (s : World) (n : nat) (evs : list Event) : World :=
  {| RebindMap := RebindMap s; upstream := upstream s;
     exchanges := n + exchanges s; trace := trace s ++ evs |}.

Definition redirectLog (w : ResponseWriter) : Event :=
  EvLog LInfo [Text ("redirecting using protocol: " +:+ clientNet w)].

Definition retryLog : Event := EvLog LDebug [Text "retrying..."].

Definition failureLog (err : string) : Event :=
  EvLog LWarn [Text "failure to forward request "; Quoted err; Text nl].

(** The events of one call of [handleRedirect], by the results of the
    first exchange and of the retry. *)
Definition redirectEvents (w : ResponseWriter) (req : Msg) (redirect : string)
    (first second : ExchangeResult) : nat * list Event :=
  let ex := EvExchange (clientNet w) req redirect in
  match first, second with
  | ExchOk r, _ => (1%nat, [redirectLog w; ex; EvWriteMsg (withCompress r true)])
  | ExchErr _, ExchOk r =>
      (2%nat, [redirectLog w; ex; retryLog; ex; EvWriteMsg (withCompress r true)])
  | ExchErr _, ExchErr err =>
      (2%nat, [redirectLog w; ex; retryLog; ex; failureLog err;
               EvWriteMsg (serverFailure req)])
  end.

Definition notifyEvents (w : ResponseWriter) (req : Msg) (c : MadnsSubConfig)
    : list Event :=
  (if nonEmpty (NotifyEmail c) then [EvEmail (NotifyEmail c) (notifyBody w req)] else [])
  ++ (if nonEmpty (NotifySlack c) then [EvSlack (NotifySlack c) (notifyBody w req)] else []).

(** The counter of [ck]: 0 until the first rebind dispatch creates it. *)
Definition counter (s : World) (ck : string) : Z := default 0 (RebindMap s !! ck).

(** [s] after a rebind dispatch for [ck] with the events [evs]. *)
Definition afterRebind (s : World) (ck : string) (evs : list Event) : World :=
  {| RebindMap := <[ck := wrap64 (counter s ck + 1)]> (RebindMap s);
     upstream := upstream s; exchanges := exchanges s;
     trace := trace s ++ evs |}.

(** The addresses of the rebind list; none when [Rebind] is nil. *)
Definition rebindAddrs (c : MadnsSubConfig) : list string :=
  match Rebind c with Some rc => Addrs rc | None => [] end.

(** The policy [c] with [Respond] and [Rebind] cleared. *)
Definition redirectOnly (c : MadnsSubConfig) : MadnsSubConfig :=
  {| Redirect := Redirect c; NotifyEmail := NotifyEmail c; Respond := "";
     NotifySlack := NotifySlack c; Rebind := None |}.

(** The policy [c] with [Rebind] cleared. *)
Definition withoutRebind (c : MadnsSubConfig) : MadnsSubConfig :=
  {| Redirect := Redirect c; NotifyEmail := NotifyEmail c; Respond := Respond c;
     NotifySlack := NotifySlack c; Rebind := None |}.

Definition noHandlerLog (q0 : DnsQuestion) : Event :=
  EvLog LWarn [Text ("no handler for domain: " +:+ Name q0)].

Definition header (q : DnsQuestion) (rrtype : Z) : RR_Header :=
  {| HName := Name q; Rrtype := rrtype; Class := ClassINET; Ttl := 0 |}.

(** *** Successive dispatches *)

(** One dispatch, and [n] dispatches of the same query one after the
    other. *)
Definition dispatch (w : ResponseWriter) (req : Msg) (config : MadnsConfig)
    (order : list (string * MadnsSubConfig)) (s : World) : option World :=
  snd <$> handleDNS w req config order s.

Definition dispatches (n : N) (w : ResponseWriter) (req : Msg) (config : MadnsConfig)
    (order : list (string * MadnsSubConfig)) (s : World) : option World :=
  N.iter n (fun o => o ≫= dispatch w req config order) (Some s).

Global Arguments dispatches : simpl never.

(** ** Configurations and queries used in the examples *)

Definition query (name : string) : Msg :=
  {| Id := 4242; Response := false; Opcode := OpcodeQuery;
     RecursionDesired := true; CheckingDisabled := false;
     Rcode := RcodeSuccess; Compress := false;
     Question := [{| Name := name; Qtype := TypeA; Qclass := ClassINET |}];
     Answer := [] |}.

Definition udpClient : ResponseWriter := {| RemoteAddr := UDPAddr "192.0.2.7:40000" |}.

Definition tcpClient : ResponseWriter := {| RemoteAddr := TCPAddr "192.0.2.7:40001" |}.

Definition policy (redirect respond : string) (rebind : option (list string))
    (email slack : string) : MadnsSubConfig :=
  {| Redirect := redirect; NotifyEmail := email; Respond := respond;
     NotifySlack := slack;
     Rebind := (fun a => {| Addrs := a |}) <$> rebind |}.

Definition configOf (handlers : list (string * MadnsSubConfig)) : MadnsConfig :=
  {| SMTPUser := ""; SMTPPassword := ""; SMTPServer := ""; SMTPDelay := 0;
     Port := 53; Handlers := list_to_map handlers |}.

(** A fresh process: no rebind counter yet, nothing done. *)
Definition start (up : nat -> ExchangeResult) : World :=
  {| RebindMap := ∅; upstream := up; exchanges := O; trace := [] |}.

Definition upstreamReply (req : Msg) : Msg :=
  withAnswer (SetReply newMsg req)
    [Some (RR_A {| HName := "www.example.net."; Rrtype := TypeA;
                   Class := ClassINET; Ttl := 300 |} [198; 51; 100; 9])].

(** An upstream that fails [n] times, then answers. *)
Definition failing (n : nat) (req : Msg) : nat -> ExchangeResult :=
  fun i => if (i <? n)%nat then ExchErr "i/o timeout" else ExchOk (upstreamReply req).

(** A query without question. *)
Definition emptyQuery : Msg :=
  {| Id := 4243; Response := false; Opcode := OpcodeQuery;
     RecursionDesired := false; CheckingDisabled := false;
     Rcode := RcodeSuccess; Compress := false; Question := []; Answer := [] |}.

Definition twoQuestions (first second : string) : Msg :=
  {| Id := 4244; Response := false; Opcode := OpcodeQuery;
     RecursionDesired := true; CheckingDisabled := false;
     Rcode := RcodeSuccess; Compress := false;
     Question := [{| Name := first; Qtype := TypeA; Qclass := ClassINET |};
                  {| Name := second; Qtype := TypeAAAA; Qclass := ClassINET |}];
     Answer := [] |}.

Definition notifyOnly : MadnsSubConfig := policy "" "" None "" "https://hooks.example/T0".

Definition notifyOnlyHandlers : list (string * MadnsSubConfig) :=
  [("notify.test"%string, notifyOnly)].

Definition bothSet : MadnsSubConfig :=
  policy "198.51.100.1:53" "203.0.113.5" (Some ["10.0.0.1"; "10.0.0.2"]%string) "" "".

Definition twoHandlers : list (string * MadnsSubConfig) :=
  [("."%string, policy "" "192.0.2.99" None "" "");
   ("example.com"%string, policy "" "203.0.113.5" None "" "")].

Definition defaultOnly : list (string * MadnsSubConfig) := [("."%string, notifyOnly)].

Definition mixedCase : list (string * MadnsSubConfig) :=
  [("Example.COM"%string, policy "" "203.0.113.5" None "" "")].

Definition rebindTest : MadnsSubConfig :=
  policy "" "" (Some ["10.0.0.1"; "10.0.0.2"]%string) "" "".

Definition rebindHandlers : list (string * MadnsSubConfig) :=
  [("rebind.test"%string, rebindTest)].

Definition respondAndRebind : MadnsSubConfig :=
  policy "" "192.0.2.1" (Some ["10.0.0.1"; "10.0.0.2"]%string) "" "".

Definition rebindThree : MadnsSubConfig :=
  policy "" "" (Some ["10.0.0.1"; "10.0.0.2"; "10.0.0.3"]%string) "" "".

Definition forwardAndNotify : MadnsSubConfig :=
  policy "198.51.100.1:53" "" None "ops@example.net" "https://hooks.example/T0".

Definition nested : list (string * MadnsSubConfig) :=
  [("example.com"%string, policy "" "203.0.113.5" None "" "");
   ("sub.example.com"%string, policy "" "203.0.113.6" None "" "")].

Definition asking (name : string) (qtype : Z) : Msg :=
  {| Id := 4245; Response := false; Opcode := OpcodeQuery;
     RecursionDesired := true; CheckingDisabled := false;
     Rcode := RcodeSuccess; Compress := false;
     Question := [{| Name := name; Qtype := qtype; Qclass := ClassINET |}];
     Answer := [] |}.

Definition otherCounters : World :=
  {| RebindMap := {[ "other.test"%string := 7 ]};
     upstream := failing 0 (query "rebind.test.");
     exchanges := O; trace := [] |}.

Definition emailOnly : MadnsSubConfig := policy "" "" None "ops@example.net" "".

(** ** The rebind counter in two steps

    Lines 149 and 151 are two atomic operations on the shared map, and
    dispatches that run at the same time interleave them. *)

(** [RebindMap.LoadOrStore(ck, &atomic.Uint64{})] on the counters: the
    counter of [ck] is created at 0 unless it exists. *)
Definition LoadOrStore (ck : string) (m : gmap string Z) : gmap string Z :=
  match m !! ck with
  | Some _ => m
  | None => <[ck := 0]> m
  end.

(** [ctr.Add(1)] on the counter stored under [ck]: its new value, and the
    counters. *)
Definition Add1 (ck : string) (m : gmap string Z) : Z * gmap string Z :=
  let new := wrap64 (default 0 (m !! ck) + 1) in
  (new, <[ck := new]> m).

(** Rebind dispatches for the key [ck], of a list of [len] addresses,
    that run concurrently.  [sched] names, step by step, the dispatch
    that moves: the first step of a dispatch is its [LoadOrStore], the
    second its [Add], which gives it its index; [loaded] holds the
    dispatches between the two.  The result lists the dispatches with
    their indices, in the order of the [Add] steps. *)
Fixpoint interleave (ck : string) (len : nat) (sched : list nat)
    (loaded : gset nat) (m : gmap string Z) : list (nat * Z) * gmap string Z :=
  match sched with
  | [] => ([], m)
  | t :: sched' =>
      if decide (t ∈ loaded) then
        let '(new, m') := Add1 ck m in
        let '(used, m'') := interleave ck len sched' (loaded ∖ {[t]}) m' in
        ((t, rebindIndex new len) :: used, m'')
      else interleave ck len sched' ({[t]} ∪ loaded) (LoadOrStore ck m)
  end.

(** The warnings among the events. *)
Definition warned (evs : list Event) : list Event :=
  List.filter (fun e => match e with EvLog LWarn _ => true | _ => false end) evs.

(** ** Facts about the library functions *)

Section StringFacts.

Import Strings.

Local Arguments String.append : simpl nomatch.

Lemma length_app (a b : string) :
  String.length (a +:+ b) = (String.length a + String.length b)%nat.
Proof. induction a as [|c a IH]; simpl; congruence. Qed.

Lemma app_assoc_s (a b c : string) : (a +:+ b) +:+ c = a +:+ b +:+ c.
Proof. induction a as [|x a IH]; simpl; congruence. Qed.

Lemma take_drop_s (n : nat) (s : string) : take n s +:+ drop n s = s.
Proof.
  revert s. induction n as [|n IH]; intros [|c s]; simpl; try reflexivity.
  by rewrite IH.
Qed.

Lemma drop_app_length (p s : string) : drop (String.length p) (p +:+ s) = s.
Proof. induction p as [|c p IH]; simpl; auto. Qed.

Lemma take_app_length_s (p s : string) : take (String.length p) (p +:+ s) = p.
Proof. induction p as [|c p IH]; simpl; congruence. Qed.

(** [HasSuffix] holds exactly of the strings that end with the suffix. *)
Lemma HasSuffix_spec (s suffix : string) :
  HasSuffix s suffix = true <-> exists p, s = p +:+ suffix.
Proof.
  unfold HasSuffix. rewrite andb_true_iff, Nat.leb_le, String.eqb_eq. split.
  - intros [_ Hd]. exists (take (String.length s - String.length suffix) s).
    rewrite <- Hd at 2. by rewrite take_drop_s.
  - intros [p ->]. rewrite length_app. split; [lia|].
    replace (String.length p + String.length suffix - String.length suffix)%nat
      with (String.length p) by lia.
    apply drop_app_length.
Qed.

Lemma HasSuffix_false (s suffix : string) :
  HasSuffix s suffix = false <-> forall p, s <> p +:+ suffix.
Proof.
  rewrite <- not_true_iff_false, HasSuffix_spec. split.
  - intros H p Hp. apply H. by exists p.
  - intros H [p Hp]. by apply (H p).
Qed.

Lemma TrimSuffix_app (p suffix : string) : TrimSuffix (p +:+ suffix) suffix = p.
Proof.
  unfold TrimSuffix.
  replace (HasSuffix (p +:+ suffix) suffix) with true
    by (symmetry; apply HasSuffix_spec; by exists p).
  rewrite length_app.
  replace (String.length p + String.length suffix - String.length suffix)%nat
    with (String.length p) by lia.
  apply take_app_length_s.
Qed.

Lemma TrimSuffix_none (s suffix : string) :
  HasSuffix s suffix = false -> TrimSuffix s suffix = s.
Proof. unfold TrimSuffix. by intros ->. Qed.

Lemma ToLower_app (a b : string) : ToLower (a +:+ b) = ToLower a +:+ ToLower b.
Proof. induction a as [|c a IH]; simpl; congruence. Qed.

Lemma lowerByte_idem (c : ascii) : lowerByte (lowerByte c) = lowerByte c.
Proof. destruct c as [[] [] [] [] [] [] [] []]; reflexivity. Qed.

Lemma ToLower_idem (s : string) : ToLower (ToLower s) = ToLower s.
Proof. induction s as [|c s IH]; simpl; [done|]. by rewrite lowerByte_idem, IH. Qed.

Lemma lowerByte_dot (c : ascii) : Ascii.eqb (lowerByte c) "." = Ascii.eqb c ".".
Proof. destruct c as [[] [] [] [] [] [] [] []]; reflexivity. Qed.

Lemma lowerByte_backslash (c : ascii) :
  Ascii.eqb (lowerByte c) Dns.backslash = Ascii.eqb c Dns.backslash.
Proof. destruct c as [[] [] [] [] [] [] [] []]; reflexivity. Qed.

Lemma list_ascii_ToLower (s : string) :
  list_ascii_of_string (ToLower s) = map lowerByte (list_ascii_of_string s).
Proof. induction s as [|c s IH]; simpl; congruence. Qed.

Lemma escapes_lower (r : list ascii) :
  Dns.escapes (map lowerByte r) = Dns.escapes r.
Proof.
  induction r as [|c r IH]; simpl; [done|].
  rewrite lowerByte_backslash, IH. reflexivity.
Qed.

(** Case does not decide whether a name is fully qualified. *)
Lemma IsFqdn_ToLower (s : string) : Dns.IsFqdn (ToLower s) = Dns.IsFqdn s.
Proof.
  unfold Dns.IsFqdn. rewrite list_ascii_ToLower, <- map_rev.
  destruct (rev (list_ascii_of_string s)) as [|c r]; simpl; [done|].
  by rewrite lowerByte_dot, escapes_lower.
Qed.

Lemma ToLower_Fqdn (k : string) : ToLower (Dns.Fqdn k) = Dns.Fqdn (ToLower k).
Proof.
  unfold Dns.Fqdn. rewrite IsFqdn_ToLower.
  destruct (Dns.IsFqdn k); [done|]. by rewrite ToLower_app.
Qed.

End StringFacts.

Lemma app_dot_inj (a b : string) : a +:+ "." = b +:+ "." -> a = b.
Proof.
  revert b. induction a as [|x a IH]; intros [|y b]; simpl; try done.
  - destruct b; discriminate.
  - destruct a; discriminate.
  - intros [= -> H]. f_equal. by apply IH.
Qed.

Lemma HasSuffix_dot_cases (s : string) :
  (exists p, s = p +:+ ".") \/ Strings.HasSuffix s "." = false.
Proof.
  destruct (Strings.HasSuffix s ".") eqn:H; [left; by apply HasSuffix_spec|by right].
Qed.

Lemma nonEmpty_false (s : string) : nonEmpty s = false <-> s = ""%string.
Proof. destruct s; simpl; split; (done || discriminate). Qed.

Lemma nonEmpty_true (s : string) : nonEmpty s = true <-> s <> ""%string.
Proof. destruct s; simpl; split; (done || discriminate). Qed.

Lemma wrap64_succ (a b : Z) : wrap64 a = wrap64 b -> wrap64 (wrap64 (a + 1)) = wrap64 (b + 1).
Proof.
  unfold wrap64. intros H. rewrite Z.mod_mod by lia.
  rewrite <- (Zplus_mod_idemp_l a), <- (Zplus_mod_idemp_l b). by rewrite H.
Qed.

Lemma rebindIndex_counter (ctr : Z) (len : nat) :
  rebindIndex (wrap64 (ctr + 1)) len = wrap64 ctr mod Z.of_nat len.
Proof.
  unfold rebindIndex, wrap64. f_equal.
  rewrite Zminus_mod_idemp_l. f_equal. lia.
Qed.

(** ** Running the handlers *)

Lemma after_nil s : after s [] = s.
Proof. destruct s; unfold after; simpl. by rewrite app_nil_r. Qed.

Lemma after_after s a b : after (after s a) b = after s (a ++ b).
Proof. unfold after; simpl. by rewrite app_assoc. Qed.

Lemma emit_run e s : emit e s = Some (tt, after s [e]).
Proof. reflexivity. Qed.

Lemma written_app a b : written (a ++ b) = written a ++ written b.
Proof. apply omap_app. Qed.

Lemma respondLoop_run qs : forall i respond answer s,
  (i + length qs <= length answer)%nat ->
  respondLoop qs i respond answer s =
    Some (take i answer ++ map (fun q => Some (answerFor q respond)) qs
            ++ drop (i + length qs) answer,
          after s (map (fun q => respondLog q respond) qs)).
Proof.
  induction qs as [|q qs IH]; intros i respond answer s Hlen; simpl in *.
  - rewrite Nat.add_0_r, take_drop, after_nil. reflexivity.
  - unfold bind at 1, slogInfo. rewrite emit_run. unfold bind at 1, setAnswer.
    destruct (Nat.ltb_spec i (length answer)) as [Hi|Hi]; [|lia].
    unfold ret. rewrite IH by (rewrite length_insert; lia).
    rewrite after_after. simpl. f_equal. f_equal.
    rewrite take_insert_lt by lia.
    rewrite drop_insert_lt by lia.
    rewrite (insert_take_drop (take (S i) answer)) by (rewrite length_take; lia).
    rewrite take_take, Nat.min_l by lia.
    rewrite drop_ge by (rewrite length_take; lia).
    rewrite <- app_assoc. simpl.
    by rewrite Nat.add_succ_r.
Qed.

Lemma handleRespond_run w req respond s :
  handleRespond w req respond s = Some (tt, after s (respondEvents req respond)).
Proof.
  unfold handleRespond, bind.
  rewrite respondLoop_run by (rewrite length_replicate; lia).
  simpl. rewrite drop_ge by (rewrite length_replicate; lia).
  rewrite app_nil_r. unfold WriteMsg. rewrite emit_run, after_after.
  reflexivity.
Qed.

Lemma written_respondEvents req respond :
  written (respondEvents req respond) = [respondMsg req respond].
Proof.
  unfold respondEvents. rewrite written_app.
  replace (written (map _ (Question req))) with (@nil Msg); [done|].
  induction (Question req) as [|q qs IH]; [done|exact IH].
Qed.

Lemma answerFor_header q respond :
  HName (Header (answerFor q respond)) = Name q
  /\ Ttl (Header (answerFor q respond)) = 0
  /\ Class (Header (answerFor q respond)) = ClassINET.
Proof.
  unfold answerFor. destruct (Net.ParseIP respond) as [ip|]; [|done].
  by destruct (Net.To4 ip).
Qed.

Lemma handleRedirect_run w req redirect s :
  let '(n, evs) := redirectEvents w req redirect (upstream s (exchanges s))
                                  (upstream s (S (exchanges s))) in
  handleRedirect w req redirect s = Some (tt, afterExchanges s n evs).
Proof.
  unfold redirectEvents, handleRedirect, redirectFrom, bind, slogInfo, slogDebug,
    slogWarn, WriteMsg, Exchange, emit, afterExchanges; simpl.
  destruct (upstream s (exchanges s)) as [r|e]; simpl.
  - by rewrite <- !app_assoc.
  - destruct (upstream s (S (exchanges s))) as [r|e']; simpl;
      by rewrite <- !app_assoc.
Qed.

Lemma handleRedirect_events w req redirect s :
  exists n evs, handleRedirect w req redirect s = Some (tt, afterExchanges s n evs)
                /\ length (written evs) = 1%nat.
Proof.
  pose proof (handleRedirect_run w req redirect s) as Hrun.
  unfold redirectEvents in Hrun.
  destruct (upstream s (exchanges s)); [|destruct (upstream s (S (exchanges s)))];
    eexists _, _; (split; [exact Hrun|reflexivity]).
Qed.

Lemma notify_run w req c config s :
  notify w req c config s = Some (tt, after s (notifyEvents w req c)).
Proof.
  unfold notify, notifyEvents, bind, debouncedSendEmail, sendSlackMessage, ret.
  destruct (nonEmpty (NotifyEmail c)), (nonEmpty (NotifySlack c));
    rewrite ?emit_run, ?after_after, ?after_nil; reflexivity.
Qed.

Lemma written_notifyEvents w req c : written (notifyEvents w req c) = [].
Proof.
  unfold notifyEvents.
  by destruct (nonEmpty (NotifyEmail c)), (nonEmpty (NotifySlack c)).
Qed.

(** ** The matcher *)

Section Matcher.

Variable req : Msg.

Lemma rangeHandlers_found order k v :
  rangeHandlers order req = Some (Some (k, v)) ->
  exists q0 rest, Question req = q0 :: rest /\ (k, v) ∈ order
                  /\ k <> "."%string /\ keyMatches (Name q0) k = true.
Proof.
  induction order as [|[k' v'] order IH]; simpl; [discriminate|].
  destruct (String.eqb_spec k' ".") as [->|Hk'].
  - intros (q0 & rest & ? & ? & ? & ?)%IH.
    exists q0, rest. repeat split; auto. by apply list_elem_of_further.
  - destruct (Question req) as [|q0 rest] eqn:Hq; [discriminate|].
    destruct (keyMatches (Name q0) k') eqn:Hm.
    + intros [= -> ->]. exists q0, rest. repeat split; auto.
      apply list_elem_of_here.
    + intros (q1 & rest1 & [= <- <-] & ? & ? & ?)%IH.
      exists q0, rest. repeat split; auto. by apply list_elem_of_further.
Qed.

Lemma rangeHandlers_none order q0 rest :
  Question req = q0 :: rest ->
  (forall k v, (k, v) ∈ order -> k <> "."%string -> keyMatches (Name q0) k = false) ->
  rangeHandlers order req = Some None.
Proof.
  intros Hq. induction order as [|[k v] order IH]; simpl; [done|].
  intros Hno.
  assert (rangeHandlers order req = Some None) as Hrest.
  { apply IH. intros k' v' Hin. apply (Hno k' v'). by apply list_elem_of_further. }
  destruct (String.eqb_spec k ".") as [->|Hk]; [done|].
  rewrite Hq, (Hno k v); auto. apply list_elem_of_here.
Qed.

Lemma rangeHandlers_some order q0 rest k v :
  Question req = q0 :: rest ->
  (k, v) ∈ order -> k <> "."%string -> keyMatches (Name q0) k = true ->
  exists k' v', rangeHandlers order req = Some (Some (k', v')).
Proof.
  intros Hq. induction order as [|[k1 v1] order IH]; simpl.
  - by intros ?%elem_of_nil.
  - intros Hin Hk Hm. rewrite Hq.
    destruct (String.eqb_spec k1 ".") as [->|Hk1].
    + apply IH; auto. apply elem_of_cons in Hin as [[= -> ->]|]; [done|auto].
    + destruct (keyMatches (Name q0) k1) eqn:Hm1; [by eauto|].
      apply IH; auto. apply elem_of_cons in Hin as [[= -> ->]|]; [congruence|auto].
Qed.

(** Without one it panics at the first key that is not the default. *)
Lemma rangeHandlers_empty_panic order k v :
  Question req = [] -> (k, v) ∈ order -> k <> "."%string ->
  rangeHandlers order req = None.
Proof.
  intros Hq. induction order as [|[k1 v1] order IH]; simpl.
  - by intros ?%elem_of_nil.
  - intros Hin Hk. rewrite Hq.
    destruct (String.eqb_spec k1 ".") as [->|Hk1]; [|done].
    apply IH; auto. apply elem_of_cons in Hin as [[= -> ->]|]; [done|auto].
Qed.

End Matcher.

(** The loop reads nothing of the request but the name of its first
    question. *)
Lemma rangeHandlers_first_name order req req' :
  Name <$> head (Question req) = Name <$> head (Question req') ->
  rangeHandlers order req = rangeHandlers order req'.
Proof.
  intros Hn. induction order as [|[k v] order IH]; simpl; [done|].
  rewrite IH. destruct (k =? ".")%string; [done|].
  destruct (Question req) as [|q0 ?], (Question req') as [|q0' ?];
    simpl in Hn; try discriminate; [done|].
  injection Hn as ->. reflexivity.
Qed.

Lemma rangeHandlers_panic req order :
  rangeHandlers order req = None ->
  Question req = [] /\ exists k v, (k, v) ∈ order /\ k <> "."%string.
Proof.
  induction order as [|[k v] order IH]; simpl; [discriminate|].
  destruct (String.eqb_spec k ".") as [->|Hk].
  - intros (Hq & k' & v' & Hin & Hk')%IH. split; [done|].
    exists k', v'. split; [by apply list_elem_of_further|done].
  - destruct (Question req) as [|q0 rest].
    + intros _. split; [done|]. exists k, v. split; [apply list_elem_of_here|done].
    + destruct (keyMatches (Name q0) k); [discriminate|].
      intros (Hq & _)%IH. discriminate.
Qed.

Lemma rangeOrder_lookup config order k v :
  rangeOrder config order -> (k, v) ∈ order <-> Handlers config !! k = Some v.
Proof.
  unfold rangeOrder. intros ->. apply elem_of_map_to_list.
Qed.

(** The listed entries are an iteration order of the map they build. *)
Lemma rangeOrder_configOf (handlers : list (string * MadnsSubConfig)) :
  NoDup handlers.*1 -> rangeOrder (configOf handlers) handlers.
Proof. intros Hnd. unfold rangeOrder. simpl. by rewrite map_to_list_to_map. Qed.

Lemma keyMatches_spec (q k : string) :
  keyMatches q k = true
  <-> Strings.ToLower q = Strings.ToLower (Dns.Fqdn k)
      \/ exists p, Strings.ToLower q = p +:+ "." +:+ Strings.ToLower (Dns.Fqdn k).
Proof.
  unfold keyMatches. rewrite orb_true_iff, String.eqb_eq, HasSuffix_spec. reflexivity.
Qed.

(** Case matters neither in the name queried nor in the key. *)
Lemma keyMatches_case (q q' k k' : string) :
  Strings.ToLower q = Strings.ToLower q' ->
  Strings.ToLower k = Strings.ToLower k' ->
  keyMatches q k = keyMatches q' k'.
Proof.
  intros Hq Hk. unfold keyMatches. by rewrite !ToLower_Fqdn, Hq, Hk.
Qed.

Lemma twoHandlers_order : rangeOrder (configOf twoHandlers) twoHandlers.
Proof.
  apply rangeOrder_configOf. by apply (bool_decide_unpack _).
Qed.

Lemma defaultOnly_order : rangeOrder (configOf defaultOnly) defaultOnly.
Proof. apply rangeOrder_configOf. by apply (bool_decide_unpack _). Qed.

Lemma mixedCase_order : rangeOrder (configOf mixedCase) mixedCase.
Proof. apply rangeOrder_configOf. by apply (bool_decide_unpack _). Qed.

(** ** Actions and notifications *)

Section Act.

Variables (w : ResponseWriter) (req : Msg) (ck : string) (c : MadnsSubConfig).

Lemma act_redirect :
  nonEmpty (Redirect c) = true -> act w req ck c = handleRedirect w req (Redirect c).
Proof. unfold act. by intros ->. Qed.

Lemma act_respond :
  nonEmpty (Redirect c) = false -> nonEmpty (Respond c) = true ->
  act w req ck c = handleRespond w req (Respond c).
Proof. unfold act. by intros -> ->. Qed.

Lemma act_rebind rc s :
  nonEmpty (Redirect c) = false -> nonEmpty (Respond c) = false ->
  Rebind c = Some rc -> (0 < length (Addrs rc))%nat ->
  exists respond,
    Addrs rc !! Z.to_nat (wrap64 (counter s ck) mod Z.of_nat (length (Addrs rc)))
      = Some respond
    /\ act w req ck c s = Some (tt, afterRebind s ck (respondEvents req respond)).
Proof.
  intros Hrd Hrs Hrb Hlen. unfold act. rewrite Hrd, Hrs, Hrb.
  destruct (Nat.ltb_spec 0 (length (Addrs rc))) as [_|]; [|lia].
  unfold bind at 1, counterAdd1. fold (counter s ck).
  rewrite rebindIndex_counter.
  destruct (lookup_lt_is_Some_2 (Addrs rc)
              (Z.to_nat (wrap64 (counter s ck) mod Z.of_nat (length (Addrs rc)))))
    as [respond Hl].
  { pose proof (Z.mod_pos_bound (wrap64 (counter s ck))
                  (Z.of_nat (length (Addrs rc)))). lia. }
  exists respond. split; [exact Hl|].
  unfold bind, liftOpt. rewrite Hl, handleRespond_run. reflexivity.
Qed.

Lemma act_nothing s :
  nonEmpty (Redirect c) = false -> nonEmpty (Respond c) = false ->
  (forall rc, Rebind c = Some rc -> Addrs rc = []) ->
  act w req ck c s = Some (tt, s).
Proof.
  intros Hrd Hrs Hrb. unfold act. rewrite Hrd, Hrs.
  destruct (Rebind c) as [rc|]; [|done].
  by rewrite (Hrb rc eq_refl).
Qed.

(** No action panics. *)
Lemma act_total s : exists s', act w req ck c s = Some (tt, s').
Proof.
  destruct (nonEmpty (Redirect c)) eqn:Hrd.
  - rewrite act_redirect by done.
    pose proof (handleRedirect_run w req (Redirect c) s) as Hrun.
    destruct (redirectEvents _ _ _ _ _) as [n evs]. eauto.
  - destruct (nonEmpty (Respond c)) eqn:Hrs.
    + rewrite act_respond by done. rewrite handleRespond_run. eauto.
    + destruct (Rebind c) as [rc|] eqn:Hrb.
      * destruct (Addrs rc) as [|a l] eqn:Ha.
        -- exists s. apply act_nothing; auto.
           intros rc0 Hrc0. rewrite Hrb in Hrc0. by injection Hrc0 as <-.
        -- destruct (act_rebind rc s) as (? & _ & ->); eauto.
           rewrite Ha. simpl. lia.
      * exists s. apply act_nothing; auto.
        intros rc0 Hrc0. rewrite Hrb in Hrc0. discriminate.
Qed.

End Act.

Lemma handleDNS_matched w req config order ck c s :
  determineConfig config order req = Some (Some (ck, c)) ->
  handleDNS w req config order s
  = ((act w req ck c ;;; notify w req c config) s).
Proof. unfold handleDNS, bind at 1, liftOpt. by intros ->. Qed.

Lemma handleDNS_unmatched w req config order q0 rest s :
  determineConfig config order req = Some None ->
  Question req = q0 :: rest ->
  handleDNS w req config order s
  = Some (tt, after s [EvLog LWarn [Text ("no handler for domain: " +:+ Name q0)];
                       EvWriteMsg (serverFailure req)]).
Proof.
  unfold handleDNS, bind, liftOpt. intros -> ->. simpl.
  unfold slogWarn, WriteMsg, emit, after. simpl. by rewrite <- app_assoc.
Qed.

Lemma handleDNS_matched_total w req config order ck c s :
  determineConfig config order req = Some (Some (ck, c)) ->
  exists s', handleDNS w req config order s = Some (tt, s').
Proof.
  intros Hm. rewrite (handleDNS_matched _ _ _ _ _ _ _ Hm). unfold bind.
  destruct (act_total w req ck c s) as [s1 ->]. rewrite notify_run. eauto.
Qed.

Section Rebind.

Variables (w : ResponseWriter) (req : Msg) (config : MadnsConfig)
          (order : list (string * MadnsSubConfig)).
Variables (k : string) (c : MadnsSubConfig) (rc : MadnsRebindConfig).

Hypothesis matched : determineConfig config order req = Some (Some (k, c)).
Hypothesis noRedirect : Redirect c = ""%string.
Hypothesis noRespond : Respond c = ""%string.
Hypothesis rebind : Rebind c = Some rc.
Hypothesis addrs : Addrs rc <> [].

Lemma addrs_length : (0 < length (Addrs rc))%nat.
Proof. destruct (Addrs rc); [done|simpl; lia]. Qed.

(** One rebind dispatch: the address at the counter, modulo the length
    of the list, and the counter incremented. *)
Lemma rebind_dispatch s :
  exists respond,
    Addrs rc !! Z.to_nat (wrap64 (counter s k) mod Z.of_nat (length (Addrs rc)))
      = Some respond
    /\ handleDNS w req config order s
       = Some (tt, after (afterRebind s k (respondEvents req respond))
                     (notifyEvents w req c)).
Proof.
  destruct (act_rebind w req k c rc s) as (respond & Hl & Hrun);
    [by apply nonEmpty_false|by apply nonEmpty_false|done|apply addrs_length|].
  exists respond. split; [done|].
  rewrite (handleDNS_matched _ _ _ _ _ _ _ matched). unfold bind.
  by rewrite Hrun, notify_run.
Qed.

(** After [j] dispatches the counter has advanced by [j], modulo
    [2^64]. *)
Lemma rebind_dispatches s0 (j : N) :
  exists s, dispatches j w req config order s0 = Some s
            /\ wrap64 (counter s k) = wrap64 (counter s0 k + Z.of_N j).
Proof.
  induction j as [|j (s & Hs & Hctr)] using N.peano_ind.
  - exists s0. split; [done|]. f_equal. lia.
  - destruct (rebind_dispatch s) as (respond & _ & Hrun).
    eexists. unfold dispatches in *. rewrite N.iter_succ, Hs. simpl.
    unfold dispatch. rewrite Hrun. split; [reflexivity|].
    unfold counter at 1. simpl. rewrite lookup_insert_eq. simpl.
    rewrite (wrap64_succ _ _ Hctr). f_equal. lia.
Qed.

(** The dispatch that follows [j] others. *)
Lemma rebind_nth s0 (j : N) :
  exists s s' respond,
    dispatches j w req config order s0 = Some s
    /\ handleDNS w req config order s = Some (tt, s')
    /\ Addrs rc !! Z.to_nat (wrap64 (counter s0 k + Z.of_N j)
                             mod Z.of_nat (length (Addrs rc))) = Some respond
    /\ written (trace s') = written (trace s) ++ [respondMsg req respond].
Proof.
  destruct (rebind_dispatches s0 j) as (s & Hs & Hctr).
  destruct (rebind_dispatch s) as (respond & Hl & Hrun).
  exists s, (after (afterRebind s k (respondEvents req respond))
               (notifyEvents w req c)), respond.
  split; [done|]. split; [exact Hrun|].
  split; [by rewrite <- Hctr|].
  simpl. rewrite !written_app, written_respondEvents, written_notifyEvents.
  by rewrite app_nil_r.
Qed.

End Rebind.

(** ** The parser of IP literals on examples *)

Example ParseIP_v4 :
  Net.ParseIP "203.0.113.5" = Some (Net.v4InV6Prefix ++ [203; 0; 113; 5]).
Proof. reflexivity. Qed.

Example ParseIP_v6 :
  Net.ParseIP "2001:db8::1" = Some [32; 1; 13; 184; 0; 0; 0; 0; 0; 0; 0; 0; 0; 0; 0; 1].
Proof. reflexivity. Qed.

Example ParseIP_v6_tests :
  Net.ParseIP "::" = Some (replicate 16 0) /\
  Net.ParseIP "1::" = Some ([0;1] ++ replicate 14 0) /\
  Net.ParseIP "::ffff:1.2.3.4" = Some (Net.v4InV6Prefix ++ [1;2;3;4]) /\
  Net.ParseIP "1:2:3:4:5:6:7:8" = Some [0;1;0;2;0;3;0;4;0;5;0;6;0;7;0;8] /\
  Net.ParseIP "1:2:3:4:5:6:7::" = Some [0;1;0;2;0;3;0;4;0;5;0;6;0;7;0;0] /\
  Net.ParseIP "1:2:3:4:5:6:7:8::" = None /\
  Net.ParseIP "1:2:3:4:5:6:7:8:9" = None /\
  Net.ParseIP "1:2:3:4:5:6:7" = None /\
  Net.ParseIP "fe80::1%eth0" = None /\
  Net.ParseIP "1::2::3" = None /\
  Net.ParseIP "12345::" = None /\
  Net.ParseIP ":1::" = None /\
  Net.ParseIP "1:2:3:4:5:6:1.2.3.4" = Some [0;1;0;2;0;3;0;4;0;5;0;6;1;2;3;4] /\
  Net.ParseIP "1:2:3:4:5:1.2.3.4" = None /\
  Net.ParseIP "01.2.3.4" = None /\
  Net.ParseIP "1.2.3" = None /\
  Net.ParseIP "1.2.3.4." = None /\
  Net.ParseIP "1.2.3.256" = None /\
  Net.ParseIP "0.0.0.0" = Some (Net.v4InV6Prefix ++ [0;0;0;0]) /\
  Net.ParseIP "cname.example.org" = None /\
  Net.ParseIP "" = None.
Proof. repeat split; reflexivity. Qed.

(** ** C1: a policy without action *)

(** C1 (amended). A query that matches a policy without redirect, without
    respond and without rebind addresses gets no reply at all: the
    dispatch returns having written nothing to the client, made no
    exchange and left the rebind counters alone; its only events are the
    notifications of the policy. *)
Theorem no_action_no_reply w req config order ck c s :
  determineConfig config order req = Some (Some (ck, c)) ->
  Redirect c = ""%string -> Respond c = ""%string -> rebindAddrs c = [] ->
  handleDNS w req config order s = Some (tt, after s (notifyEvents w req c))
  /\ written (notifyEvents w req c) = [].
Proof.
  intros Hm Hrd%nonEmpty_false Hrs%nonEmpty_false Hrb.
  split; [|apply written_notifyEvents].
  rewrite (handleDNS_matched _ _ _ _ _ _ _ Hm). unfold bind.
  rewrite act_nothing, ?notify_run; auto.
  intros rc Hrc. unfold rebindAddrs in Hrb. by rewrite Hrc in Hrb.
Qed.

Lemma no_action_no_reply_witness :
  handleDNS udpClient (query "notify.test.") (configOf notifyOnlyHandlers)
    notifyOnlyHandlers (start (failing 0 (query "notify.test.")))
  = Some (tt, after (start (failing 0 (query "notify.test.")))
                (notifyEvents udpClient (query "notify.test.") notifyOnly))
  /\ written (notifyEvents udpClient (query "notify.test.") notifyOnly) = [].
Proof.
  apply (no_action_no_reply udpClient (query "notify.test.")
           (configOf notifyOnlyHandlers) notifyOnlyHandlers "notify.test" notifyOnly);
    reflexivity.
Defined.

(** C1 as stated fails: the query below matches a policy that only
    notifies; the dispatch returns with the Slack notification as its only
    event, and no reply, of any status, was written to the client. *)
Lemma no_action_no_reply_counterexample :
  rangeOrder (configOf notifyOnlyHandlers) notifyOnlyHandlers
  /\ determineConfig (configOf notifyOnlyHandlers) notifyOnlyHandlers
       (query "notify.test.") = Some (Some ("notify.test"%string, notifyOnly))
  /\ (trace ∘ snd <$> handleDNS udpClient (query "notify.test.")
                        (configOf notifyOnlyHandlers) notifyOnlyHandlers
                        (start (failing 0 (query "notify.test."))))
     = Some [EvSlack "https://hooks.example/T0"
               (notifyBody udpClient (query "notify.test."))]
  /\ (written ∘ trace ∘ snd <$> handleDNS udpClient (query "notify.test.")
                        (configOf notifyOnlyHandlers) notifyOnlyHandlers
                        (start (failing 0 (query "notify.test."))))
     = Some [].
Proof.
  split; [|repeat split; reflexivity].
  apply rangeOrder_configOf. by apply (bool_decide_unpack _).
Qed.

(** ** C2: the round robin of the rebind addresses *)

(** C2 (amended). Let a query match, under the key [k], a policy without
    redirect and without respond whose rebind list has [n > 0] addresses,
    and let [k] have no counter yet.  Then the dispatch of the query that
    follows [j] dispatches of it returns and writes one reply, the
    synthesizer's for the address of index [(j mod 2^64) mod n]; this is
    [j mod n] as long as [j < 2^64], so that the first dispatch uses index
    0 and the dispatches walk the list cyclically. *)
Theorem rebind_round_robin w req config order k c rc s0 (j : N) :
  determineConfig config order req = Some (Some (k, c)) ->
  Redirect c = ""%string -> Respond c = ""%string ->
  Rebind c = Some rc -> Addrs rc <> [] ->
  RebindMap s0 !! k = None ->
  exists s s' respond,
    dispatches j w req config order s0 = Some s
    /\ handleDNS w req config order s = Some (tt, s')
    /\ Addrs rc !! Z.to_nat ((Z.of_N j mod 2 ^ 64) mod Z.of_nat (length (Addrs rc)))
       = Some respond
    /\ written (trace s') = written (trace s) ++ [respondMsg req respond]
    /\ (Z.of_N j < 2 ^ 64 ->
          (Z.of_N j mod 2 ^ 64) mod Z.of_nat (length (Addrs rc))
          = Z.of_N j mod Z.of_nat (length (Addrs rc))).
Proof.
  intros Hm Hrd Hrs Hrb Ha Hfresh.
  destruct (rebind_nth w req config order k c rc Hm Hrd Hrs Hrb Ha s0 j)
    as (s & s' & respond & Hs & Hrun & Hl & Hw).
  exists s, s', respond. repeat split; try done.
  - unfold counter in Hl. rewrite Hfresh in Hl. exact Hl.
  - intros Hj. f_equal. apply Z.mod_small. split; [apply N2Z.is_nonneg|exact Hj].
Qed.

Lemma rebind_round_robin_witness :
  exists s s',
    dispatches 2 udpClient (query "rebind.test.") (configOf rebindHandlers)
      rebindHandlers (start (failing 0 (query "rebind.test."))) = Some s
    /\ handleDNS udpClient (query "rebind.test.") (configOf rebindHandlers)
         rebindHandlers s = Some (tt, s')
    /\ written (trace s') = written (trace s) ++ [respondMsg (query "rebind.test.") "10.0.0.1"].
Proof.
  destruct (rebind_round_robin udpClient (query "rebind.test.")
              (configOf rebindHandlers) rebindHandlers "rebind.test" rebindTest
              {| Addrs := ["10.0.0.1"; "10.0.0.2"]%string |}
              (start (failing 0 (query "rebind.test."))) 2
              eq_refl eq_refl eq_refl eq_refl)
    as (s & s' & respond & Hs & Hrun & Hl & Hw & _); [done|done|].
  injection Hl as <-. by exists s, s'.
Defined.

(** C2 as stated fails twice.  A policy with a rebind list and a respond
    literal answers with the literal: its first dispatch does not use
    [addrs[0]].  And the counter is a [uint64]: the dispatch that follows
    [2^64] others finds it back at 0 and answers with [addrs[0]] of a list
    of three, where [(j-1) mod n] is [2^64 mod 3 = 1]. *)
Lemma rebind_round_robin_counterexample :
  (rebindAddrs respondAndRebind = ["10.0.0.1"; "10.0.0.2"]%string
   /\ (written ∘ trace <$> dispatches 1 udpClient (query "rebind.test.")
                             (configOf [("rebind.test"%string, respondAndRebind)])
                             [("rebind.test"%string, respondAndRebind)]
                             (start (failing 0 (query "rebind.test."))))
      = Some [respondMsg (query "rebind.test.") "192.0.2.1"]
   /\ respondMsg (query "rebind.test.") "192.0.2.1"
      <> respondMsg (query "rebind.test.") "10.0.0.1")
  /\ (exists s s',
        dispatches (2 ^ 64) udpClient (query "rebind.test.")
          (configOf [("rebind.test"%string, rebindThree)])
          [("rebind.test"%string, rebindThree)]
          (start (failing 0 (query "rebind.test."))) = Some s
        /\ handleDNS udpClient (query "rebind.test.")
             (configOf [("rebind.test"%string, rebindThree)])
             [("rebind.test"%string, rebindThree)] s = Some (tt, s')
        /\ written (trace s')
           = written (trace s) ++ [respondMsg (query "rebind.test.") "10.0.0.1"]
        /\ rebindAddrs rebindThree !! Z.to_nat (Z.of_N (2 ^ 64) mod 3)
           = Some "10.0.0.2"%string
        /\ respondMsg (query "rebind.test.") "10.0.0.1"
           <> respondMsg (query "rebind.test.") "10.0.0.2").
Proof.
  split.
  - split; [reflexivity|]. split; [reflexivity|]. discriminate.
  - destruct (rebind_nth udpClient (query "rebind.test.")
                (configOf [("rebind.test"%string, rebindThree)])
                [("rebind.test"%string, rebindThree)] "rebind.test" rebindThree
                {| Addrs := ["10.0.0.1"; "10.0.0.2"; "10.0.0.3"]%string |}
                eq_refl eq_refl eq_refl eq_refl)
      with (s0 := start (failing 0 (query "rebind.test."))) (j := (2 ^ 64)%N)
      as (s & s' & respond & Hs & Hrun & Hl & Hw); [done|].
    injection Hl as <-. exists s, s'.
    split; [exact Hs|]. split; [exact Hrun|]. split; [exact Hw|].
    split; [reflexivity|discriminate].
Qed.

(** Three successive queries for [rebind.test] are answered with
    [10.0.0.1], [10.0.0.2] and [10.0.0.1]. *)
Example rebind_three :
  written ∘ trace <$> dispatches 3 udpClient (query "rebind.test.")
                        (configOf rebindHandlers) rebindHandlers
                        (start (failing 0 (query "rebind.test.")))
  = Some [respondMsg (query "rebind.test.") "10.0.0.1";
          respondMsg (query "rebind.test.") "10.0.0.2";
          respondMsg (query "rebind.test.") "10.0.0.1"].
Proof. reflexivity. Qed.

(** ** C3: the priority of the actions *)

(** C3 (amended). For a matched policy the dispatch returns, and which
    action it runs is decided in the order redirect, respond, rebind.
    With a redirect it is the forwarder's run and one reply is written: the
    action is that of the policy with respond and rebind cleared, and no
    counter moves.  Without redirect and with a respond literal it is the
    synthesizer's run on that literal and its reply is the one written: the
    action is that of the policy with rebind cleared, no exchange is made
    and no counter moves.  With neither and with rebind addresses it is the
    synthesizer's run on one of them, after the counter, and its reply is
    the one written, without any exchange.  With none of the three no
    action is taken: the dispatch is the notifications alone, nothing is
    written, exchanged or counted.  So one action is taken when one is
    configured and none otherwise, and never more than one reply is
    written. *)
Theorem action_priority w req config order ck c s :
  determineConfig config order req = Some (Some (ck, c)) ->
  exists s' evs,
    handleDNS w req config order s = Some (tt, s')
    /\ trace s' = trace s ++ evs
    /\ (Redirect c <> ""%string ->
          handleDNS w req config order s
            = (handleRedirect w req (Redirect c) ;;; notify w req c config) s
          /\ act w req ck c = act w req ck (redirectOnly c)
          /\ length (written evs) = 1%nat
          /\ RebindMap s' = RebindMap s)
    /\ (Redirect c = ""%string -> Respond c <> ""%string ->
          handleDNS w req config order s
            = (handleRespond w req (Respond c) ;;; notify w req c config) s
          /\ act w req ck c = act w req ck (withoutRebind c)
          /\ written evs = [respondMsg req (Respond c)]
          /\ RebindMap s' = RebindMap s /\ exchanges s' = exchanges s)
    /\ (Redirect c = ""%string -> Respond c = ""%string -> rebindAddrs c <> [] ->
          exists respond,
            respond ∈ rebindAddrs c
            /\ handleDNS w req config order s
               = ((counterAdd1 ck ;;; handleRespond w req respond) ;;;
                  notify w req c config) s
            /\ written evs = [respondMsg req respond]
            /\ exchanges s' = exchanges s)
    /\ (Redirect c = ""%string -> Respond c = ""%string -> rebindAddrs c = [] ->
          handleDNS w req config order s = notify w req c config s
          /\ evs = notifyEvents w req c
          /\ written evs = [] /\ exchanged evs = []
          /\ RebindMap s' = RebindMap s /\ exchanges s' = exchanges s)
    /\ (length (written evs) <= 1)%nat.
Proof.
  intros Hm. rewrite (handleDNS_matched _ _ _ _ _ _ _ Hm).
  destruct (nonEmpty (Redirect c)) eqn:Hrd.
  - (* redirect *)
    destruct (handleRedirect_events w req (Redirect c) s) as (n & evs & Hrun & Hone).
    pose proof (act_redirect w req ck c Hrd) as Hact.
    assert ((act w req ck c ;;; notify w req c config) s
            = Some (tt, after (afterExchanges s n evs) (notifyEvents w req c))) as Hall
      by (unfold bind; by rewrite Hact, Hrun, notify_run).
    exists (after (afterExchanges s n evs) (notifyEvents w req c)),
           (evs ++ notifyEvents w req c).
    assert (length (written (evs ++ notifyEvents w req c)) = 1%nat) as Hw
      by (by rewrite written_app, written_notifyEvents, app_nil_r).
    apply nonEmpty_true in Hrd.
    split; [done|]. split; [simpl; by rewrite app_assoc|].
    split; [|split; [|split; [|split]]]; [|intros; done..|lia].
    intros _. split; [by rewrite Hact|]. split; [|done].
    unfold act, redirectOnly; simpl. apply nonEmpty_true in Hrd. by rewrite Hrd.
  - destruct (nonEmpty (Respond c)) eqn:Hrs.
    + (* respond *)
      pose proof (act_respond w req ck c Hrd Hrs) as Hact.
      assert ((act w req ck c ;;; notify w req c config) s
              = Some (tt, after (after s (respondEvents req (Respond c)))
                            (notifyEvents w req c))) as Hall
        by (unfold bind; by rewrite Hact, handleRespond_run, notify_run).
      exists (after (after s (respondEvents req (Respond c))) (notifyEvents w req c)),
             (respondEvents req (Respond c) ++ notifyEvents w req c).
      assert (written (respondEvents req (Respond c) ++ notifyEvents w req c)
              = [respondMsg req (Respond c)]) as Hw
        by (by rewrite written_app, written_respondEvents, written_notifyEvents).
      split; [done|]. split; [simpl; by rewrite app_assoc|].
      apply nonEmpty_false in Hrd. apply nonEmpty_true in Hrs.
      split; [done|]. split; [|split; [done|split; [done|by rewrite Hw]]].
      intros _ _. split; [by rewrite Hact|]. split; [|done].
      unfold act, withoutRebind; simpl.
      apply nonEmpty_false in Hrd. apply nonEmpty_true in Hrs. by rewrite Hrd, Hrs.
    + (* rebind or nothing *)
      pose proof Hrd as Hrd'. pose proof Hrs as Hrs'.
      apply nonEmpty_false in Hrd'. apply nonEmpty_false in Hrs'.
      destruct (act_total w req ck c s) as [s1 Hs1].
      assert ((act w req ck c ;;; notify w req c config) s
              = Some (tt, after s1 (notifyEvents w req c))) as Hall
        by (unfold bind; by rewrite Hs1, notify_run).
      assert (act w req ck c s = Some (tt, s) ->
              exists s' evs,
                (act w req ck c ;;; notify w req c config) s = Some (tt, s')
                /\ trace s' = trace s ++ evs
                /\ ((act w req ck c ;;; notify w req c config) s
                      = notify w req c config s
                    /\ evs = notifyEvents w req c
                    /\ written evs = [] /\ exchanged evs = []
                    /\ RebindMap s' = RebindMap s /\ exchanges s' = exchanges s)
                /\ (length (written evs) <= 1)%nat) as Hnone.
      { intros Hact. exists (after s (notifyEvents w req c)), (notifyEvents w req c).
        assert ((act w req ck c ;;; notify w req c config) s
                = notify w req c config s) as Heq by (unfold bind; by rewrite Hact).
        rewrite Heq, notify_run, written_notifyEvents.
        assert (exchanged (notifyEvents w req c) = []) as Hex
          by (unfold notifyEvents;
              by destruct (nonEmpty (NotifyEmail c)), (nonEmpty (NotifySlack c))).
        repeat split; try done. simpl; lia. }
      unfold rebindAddrs. destruct (Rebind c) as [rc|] eqn:Hrc.
      * destruct (Addrs rc) as [|a l] eqn:Ha.
        -- destruct Hnone as (s' & evs & Hrun & Htr & Hfacts & Hle).
           { apply act_nothing; auto.
             intros rc0 Hrc0. rewrite Hrc in Hrc0. by injection Hrc0 as <-. }
           exists s', evs. repeat split; try done; apply Hfacts.
        -- assert (0 < length (Addrs rc))%nat as Hlen by (rewrite Ha; simpl; lia).
           destruct (act_rebind w req ck c rc s Hrd Hrs Hrc Hlen)
             as (respond & Hl & Hrun).
           rewrite Hrun in Hs1. injection Hs1 as <-.
           exists (after (afterRebind s ck (respondEvents req respond))
                     (notifyEvents w req c)),
                  (respondEvents req respond ++ notifyEvents w req c).
           assert (written (respondEvents req respond ++ notifyEvents w req c)
                   = [respondMsg req respond]) as Hw
             by (by rewrite written_app, written_respondEvents, written_notifyEvents).
           split; [done|]. split; [simpl; by rewrite app_assoc|].
           split; [done|]. split; [done|].
           split; [|split; [done|by rewrite Hw]].
           intros _ _ _. exists respond. rewrite <- Ha.
           split; [by eapply list_elem_of_lookup_2|].
           split; [|done].
           rewrite Hall. unfold bind, counterAdd1. fold (counter s ck).
           by rewrite handleRespond_run, notify_run.
      * destruct Hnone as (s' & evs & Hrun & Htr & Hfacts & Hle).
        { apply act_nothing; auto.
          intros rc0 Hrc0. rewrite Hrc in Hrc0. discriminate. }
        exists s', evs. repeat split; try done; apply Hfacts.
Qed.

(** C3 as stated fails: the query below matches a policy, that of the
    default key, and no action is taken for it, neither a forward nor a
    synthesis: the dispatch consists of the email notification, without
    reply, exchange or counter. *)
Lemma action_priority_counterexample :
  determineConfig (configOf [("."%string, emailOnly)]) [("."%string, emailOnly)]
    (query "www.example.org.") = Some (Some ("."%string, emailOnly))
  /\ (trace ∘ snd <$> handleDNS tcpClient (query "www.example.org.")
                        (configOf [("."%string, emailOnly)]) [("."%string, emailOnly)]
                        (start (failing 0 (query "www.example.org."))))
     = Some [EvEmail "ops@example.net" (notifyBody tcpClient (query "www.example.org."))]
  /\ (exchanges ∘ snd <$> handleDNS tcpClient (query "www.example.org.")
                        (configOf [("."%string, emailOnly)]) [("."%string, emailOnly)]
                        (start (failing 0 (query "www.example.org."))))
     = Some O
  /\ (RebindMap ∘ snd <$> handleDNS tcpClient (query "www.example.org.")
                        (configOf [("."%string, emailOnly)]) [("."%string, emailOnly)]
                        (start (failing 0 (query "www.example.org."))))
     = Some ∅.
Proof.
  assert (determineConfig (configOf [("."%string, emailOnly)]) [("."%string, emailOnly)]
            (query "www.example.org.") = Some (Some ("."%string, emailOnly))) as Hm.
  { unfold determineConfig. simpl. unfold configOf. simpl.
    by rewrite lookup_insert_eq. }
  split; [exact Hm|].
  rewrite (handleDNS_matched _ _ _ _ _ _ _ Hm). repeat split; reflexivity.
Qed.

Lemma action_priority_witness :
  written ∘ trace ∘ snd <$>
    handleDNS tcpClient (query "www.example.net.")
      (configOf [("example.net"%string, bothSet)]) [("example.net"%string, bothSet)]
      (start (failing 0 (query "www.example.net.")))
  = Some [withCompress (upstreamReply (query "www.example.net.")) true].
Proof.
  destruct (action_priority tcpClient (query "www.example.net.")
              (configOf [("example.net"%string, bothSet)])
              [("example.net"%string, bothSet)] "example.net" bothSet
              (start (failing 0 (query "www.example.net."))) eq_refl)
    as (s' & evs & Hrun & _ & Hfwd & _).
  destruct Hfwd as (-> & _); [discriminate|]. reflexivity.
Defined.

(** ** C4: forward with one retry *)



(** ** C5: matching at a label boundary *)

(** C5. Let the keys of the handlers and the names queried be ASCII.  A
    key [k] other than ["."] is selected only for a query whose first
    name, in lower case, is the lower case of [Fqdn k] or ends with ["."]
    followed by it, and [k] is then a key of the configuration.  Hence no
    spelling of [evilexample.com.] matches a key that is a spelling of
    [example.com] or [example.com.], and such a key is never selected for
    it.  The test gives the same result on names that differ in case only
    and on keys that differ in case only. *)
Theorem matcher_label_boundary :
  (forall config order req k v,
     rangeOrder config order ->
     asciiNames config req ->
     determineConfig config order req = Some (Some (k, v)) ->
     k <> "."%string ->
     exists q0 rest,
       Question req = q0 :: rest
       /\ Handlers config !! k = Some v
       /\ (Strings.ToLower (Name q0) = Strings.ToLower (Dns.Fqdn k)
           \/ exists p, Strings.ToLower (Name q0)
                        = p +:+ "." +:+ Strings.ToLower (Dns.Fqdn k)))
  /\ (forall q0 k config order req v rest,
        rangeOrder config order ->
        asciiNames config req ->
        Strings.isASCII k = true ->
        Strings.ToLower (Name q0) = "evilexample.com."%string ->
        Strings.ToLower k = "example.com"%string
        \/ Strings.ToLower k = "example.com."%string ->
        Question req = q0 :: rest ->
        keyMatches (Name q0) k = false
        /\ determineConfig config order req <> Some (Some (k, v)))
  /\ (forall q q' k k',
        Strings.isASCII q = true -> Strings.isASCII q' = true ->
        Strings.isASCII k = true -> Strings.isASCII k' = true ->
        Strings.ToLower q = Strings.ToLower q' ->
        Strings.ToLower k = Strings.ToLower k' ->
        keyMatches q k = keyMatches q' k').
Proof.
  split; [|split].
  - intros config order req k v Hord _ Hdet Hk.
    assert (rangeHandlers order req = Some (Some (k, v))) as Hloop.
    { unfold determineConfig in Hdet.
      destruct (rangeHandlers order req) as [[kv|]|]; [congruence| |discriminate].
      destruct (Handlers config !! "."%string); congruence. }
    apply rangeHandlers_found in Hloop as (q0 & rest & Hq & Hin & _ & Hm).
    exists q0, rest. split; [done|].
    split; [by apply (rangeOrder_lookup _ _ _ _ Hord)|].
    by apply keyMatches_spec.
  - intros q0 k config order req v rest _ _ _ Hq Hk Hreq.
    assert (keyMatches (Name q0) k = false) as Hno.
    { unfold keyMatches. rewrite ToLower_Fqdn, Hq. by destruct Hk as [->| ->]. }
    split; [done|]. intros Hdet.
    assert (k <> "."%string) as Hdot by (intros ->; by destruct Hk).
    assert (rangeHandlers order req = Some (Some (k, v))) as Hloop.
    { unfold determineConfig in Hdet.
      destruct (rangeHandlers order req) as [[kv|]|]; [congruence| |discriminate].
      destruct (Handlers config !! "."%string); congruence. }
    apply rangeHandlers_found in Hloop as (q1 & rest1 & Hq1 & _ & _ & Hm).
    rewrite Hreq in Hq1. injection Hq1 as <- <-. congruence.
  - intros q q' k k' _ _ _ _. apply keyMatches_case.
Qed.

Lemma mixedCase_ascii (name : string) :
  Strings.isASCII name = true -> asciiNames (configOf mixedCase) (query name).
Proof.
  intros Hname. split.
  - intros k v Hkv. apply (rangeOrder_lookup _ _ _ _ mixedCase_order) in Hkv.
    unfold mixedCase in Hkv.
    apply elem_of_cons in Hkv as [[= -> ->]|Hkv]; [reflexivity|].
    by apply elem_of_nil in Hkv.
  - intros q Hq. unfold query in Hq. simpl in Hq.
    apply elem_of_cons in Hq as [->|Hq]; [exact Hname|].
    by apply elem_of_nil in Hq.
Qed.

Lemma matcher_label_boundary_witness :
  (exists p, Strings.ToLower "a.SUB.example.Com." = p +:+ ".example.com.")
  /\ keyMatches "EvilExample.com." "Example.COM" = false.
Proof.
  destruct matcher_label_boundary as (Honly & Hevil & _). split.
  - destruct (Honly (configOf mixedCase) mixedCase (query "a.SUB.example.Com.")
                "Example.COM"%string (policy "" "203.0.113.5" None "" "")
                mixedCase_order (mixedCase_ascii "a.SUB.example.Com." eq_refl) eq_refl)
      as (q0 & rest & Hq & _ & [Heq|[p Hp]]).
    + discriminate.
    + injection Hq as <- <-. discriminate.
    + injection Hq as <- <-. by exists p.
  - exact (proj1 (Hevil {| Name := "EvilExample.com."; Qtype := TypeA;
                            Qclass := ClassINET |} "Example.COM"%string
                    (configOf mixedCase) mixedCase (query "EvilExample.com.")
                    (policy "" "203.0.113.5" None "" "") []
                    mixedCase_order (mixedCase_ascii "EvilExample.com." eq_refl)
                    eq_refl eq_refl (or_introl eq_refl) eq_refl)).
Defined.

(** ** C6: the default handler and the query without handler *)

(** C6. For a query with first question [q0] and any order in which the
    loop visits the handlers: when some key other than ["."] matches, the
    handler selected has a matching key other than ["."]; when none
    matches and ["."] is configured, the handler of ["."] is selected under
    the key ["."]; when none matches and ["."] is not configured, the
    dispatch logs one warning, writes one reply, with server-failure status
    and no answer, and does nothing else: no exchange, no counter, no
    notification. *)
Theorem default_handler_last w req config order q0 rest s :
  rangeOrder config order ->
  Question req = q0 :: rest ->
  (forall k v, Handlers config !! k = Some v -> k <> "."%string ->
     keyMatches (Name q0) k = true ->
     exists k' v', determineConfig config order req = Some (Some (k', v'))
                   /\ k' <> "."%string /\ Handlers config !! k' = Some v'
                   /\ keyMatches (Name q0) k' = true)
  /\ ((forall k v, Handlers config !! k = Some v -> k <> "."%string ->
         keyMatches (Name q0) k = false) ->
      (forall d, Handlers config !! "."%string = Some d ->
         determineConfig config order req = Some (Some ("."%string, d)))
      /\ (Handlers config !! "."%string = None ->
            determineConfig config order req = Some None
            /\ handleDNS w req config order s
               = Some (tt, after s [noHandlerLog q0; EvWriteMsg (serverFailure req)])
            /\ Rcode (serverFailure req) = RcodeServerFailure
            /\ Answer (serverFailure req) = []
            /\ notified [noHandlerLog q0; EvWriteMsg (serverFailure req)] = []
            /\ exchanged [noHandlerLog q0; EvWriteMsg (serverFailure req)] = [])).
Proof.
  intros Hord Hq. split.
  - intros k v Hkv Hk Hmatch.
    apply (rangeOrder_lookup _ _ _ _ Hord) in Hkv.
    destruct (rangeHandlers_some req order q0 rest k v Hq Hkv Hk Hmatch)
      as (k' & v' & Hfound).
    exists k', v'. unfold determineConfig. rewrite Hfound.
    destruct (rangeHandlers_found req order k' v' Hfound)
      as (q1 & rest1 & Hq1 & Hin & Hk' & Hm').
    rewrite Hq in Hq1. injection Hq1 as <- <-.
    repeat split; auto. by apply (rangeOrder_lookup _ _ _ _ Hord).
  - intros Hnone.
    assert (rangeHandlers order req = Some None) as Hloop.
    { apply (rangeHandlers_none req order q0 rest Hq).
      intros k v Hin. apply (Hnone k v). by apply (rangeOrder_lookup _ _ _ _ Hord). }
    split.
    + intros d Hd. unfold determineConfig. by rewrite Hloop, Hd.
    + intros Hd.
      assert (determineConfig config order req = Some None) as Hdet
        by (unfold determineConfig; by rewrite Hloop, Hd).
      split; [done|]. split; [|done].
      by apply handleDNS_unmatched with (rest := rest).
Qed.

Lemma default_handler_last_witness :
  determineConfig (configOf twoHandlers) twoHandlers (query "www.example.org.")
  = Some (Some ("."%string, policy "" "192.0.2.99" None "" "")).
Proof.
  refine (proj1 (proj2 (default_handler_last udpClient (query "www.example.org.")
                          (configOf twoHandlers) twoHandlers _ []
                          (start (failing 0 (query "www.example.org.")))
                          twoHandlers_order eq_refl) _) _ _).
  - intros k v Hkv Hk.
    apply (rangeOrder_lookup _ _ _ _ twoHandlers_order) in Hkv.
    unfold twoHandlers in Hkv.
    apply elem_of_cons in Hkv as [[= -> ->]|Hkv]; [done|].
    apply elem_of_cons in Hkv as [[= -> ->]|Hkv]; [reflexivity|].
    by apply elem_of_nil in Hkv.
  - apply (rangeOrder_lookup _ _ _ _ twoHandlers_order). unfold twoHandlers.
    apply list_elem_of_here.
Defined.

(** ** C7: the classification of the literal *)

(** C7. [handleRespond] returns for every literal and writes one reply,
    of success status, whose answer section has one record per question of
    the query, the [i]-th named after the [i]-th question and of TTL 0.
    The records are A records holding the parsed address when the literal
    parses to an IPv4 address (one with a 4-byte form); else AAAA records
    holding the parsed address when it parses at all; else CNAME
    records. *)
Theorem synthesizer_classification w req respond s :
  handleRespond w req respond s = Some (tt, after s (respondEvents req respond))
  /\ written (respondEvents req respond) = [respondMsg req respond]
  /\ Rcode (respondMsg req respond) = RcodeSuccess
  /\ length (Answer (respondMsg req respond)) = length (Question req)
  /\ forall (i : nat) q, Question req !! i = Some q ->
       exists rr,
         Answer (respondMsg req respond) !! i = Some (Some rr)
         /\ HName (Header rr) = Name q /\ Ttl (Header rr) = 0
         /\ (forall ip ip4, Net.ParseIP respond = Some ip -> Net.To4 ip = Some ip4 ->
               rr = RR_A (header q TypeA) ip)
         /\ (forall ip, Net.ParseIP respond = Some ip -> Net.To4 ip = None ->
               rr = RR_AAAA (header q TypeAAAA) ip)
         /\ (Net.ParseIP respond = None ->
               exists target, rr = RR_CNAME (header q TypeCNAME) target).
Proof.
  split; [apply handleRespond_run|]. split; [apply written_respondEvents|].
  split; [reflexivity|]. split; [simpl; by rewrite length_map|].
  intros i q Hq. exists (answerFor q respond). simpl.
  split; [by rewrite list_lookup_fmap, Hq|].
  destruct (answerFor_header q respond) as (Hn & Ht & _).
  split; [done|]. split; [done|].
  unfold answerFor, header. repeat split.
  - by intros ip ip4 -> ->.
  - by intros ip -> ->.
  - intros ->. eauto.
Qed.

Lemma synthesizer_classification_witness :
  exists rr,
    Answer (respondMsg (query "www.example.com.") "203.0.113.5") !! O = Some (Some rr)
    /\ rr = RR_A (header {| Name := "www.example.com."; Qtype := TypeA;
                            Qclass := ClassINET |} TypeA)
                 (Net.v4InV6Prefix ++ [203; 0; 113; 5]).
Proof.
  destruct (synthesizer_classification udpClient (query "www.example.com.")
              "203.0.113.5" (start (failing 0 (query "www.example.com."))))
    as (_ & _ & _ & _ & Hrec).
  destruct (Hrec O _ eq_refl) as (rr & Hl & _ & _ & Hv4 & _).
  exists rr. split; [exact Hl|].
  apply (Hv4 _ [203; 0; 113; 5]); reflexivity.
Defined.

Example synthesize_A :
  Answer (respondMsg (query "www.example.com.") "203.0.113.5")
  = [Some (RR_A (header {| Name := "www.example.com."; Qtype := TypeA;
                            Qclass := ClassINET |} TypeA)
                 (Net.v4InV6Prefix ++ [203; 0; 113; 5]))].
Proof. reflexivity. Qed.

Example synthesize_AAAA :
  Answer (respondMsg (query "www.example.com.") "2001:db8::1")
  = [Some (RR_AAAA (header {| Name := "www.example.com."; Qtype := TypeA;
                               Qclass := ClassINET |} TypeAAAA)
                    [32; 1; 13; 184; 0; 0; 0; 0; 0; 0; 0; 0; 0; 0; 0; 1])].
Proof. reflexivity. Qed.

Example synthesize_CNAME :
  Answer (respondMsg (query "www.example.com.") "cname.example.org")
  = [Some (RR_CNAME (header {| Name := "www.example.com."; Qtype := TypeA;
                                Qclass := ClassINET |} TypeCNAME)
                     "cname.example.org.")].
Proof. reflexivity. Qed.

(** An IPv4 address written in IPv4-mapped IPv6 notation has a 4-byte
    form and is answered with an A record. *)
Example synthesize_mapped :
  Answer (respondMsg (query "www.example.com.") "::ffff:203.0.113.5")
  = [Some (RR_A (header {| Name := "www.example.com."; Qtype := TypeA;
                            Qclass := ClassINET |} TypeA)
                 (Net.v4InV6Prefix ++ [203; 0; 113; 5]))].
Proof. reflexivity. Qed.

(** ** C8: the target of a CNAME record *)

(** C8 (amended). For a literal that does not parse as an IP address the
    dispatch returns and every record is a CNAME record whose target is the
    literal with one trailing dot removed, when it has one, and a dot
    appended: the literal itself when it ends in a dot, the literal and a
    dot otherwise.  The target ends in a dot; it ends in two exactly when
    the literal does. *)
Theorem cname_target w req respond s :
  Net.ParseIP respond = None ->
  handleRespond w req respond s = Some (tt, after s (respondEvents req respond))
  /\ written (respondEvents req respond) = [respondMsg req respond]
  /\ Answer (respondMsg req respond)
     = map (fun q => Some (RR_CNAME (header q TypeCNAME)
                             (Strings.TrimSuffix respond "." +:+ ".")))
           (Question req)
  /\ (forall p, respond = p +:+ "." -> Strings.TrimSuffix respond "." +:+ "." = respond)
  /\ (Strings.HasSuffix respond "." = false ->
        Strings.TrimSuffix respond "." +:+ "." = respond +:+ ".")
  /\ Strings.HasSuffix (Strings.TrimSuffix respond "." +:+ ".") "." = true
  /\ Strings.HasSuffix (Strings.TrimSuffix respond "." +:+ ".") ".."
     = Strings.HasSuffix respond "..".
Proof.
  intros Hip.
  split; [apply handleRespond_run|]. split; [apply written_respondEvents|].
  split; [simpl; unfold answerFor; by rewrite Hip|].
  assert (forall p, respond = p +:+ "." ->
            Strings.TrimSuffix respond "." +:+ "." = respond) as Hdot
    by (intros p ->; by rewrite TrimSuffix_app).
  assert (Strings.HasSuffix respond "." = false ->
            Strings.TrimSuffix respond "." +:+ "." = respond +:+ ".") as Hnodot
    by (intros H; by rewrite TrimSuffix_none).
  split; [done|]. split; [done|].
  split; [apply HasSuffix_spec; by eexists|].
  destruct (HasSuffix_dot_cases respond) as [[p Hp]|Hno].
  - by rewrite (Hdot p Hp).
  - rewrite (Hnodot Hno).
    transitivity false; [|symmetry]; apply HasSuffix_false; intros p Hp.
    + change ".."%string with ("." +:+ ".")%string in Hp.
      rewrite <- app_assoc_s in Hp. apply app_dot_inj in Hp.
      apply (proj1 (HasSuffix_false _ _) Hno p Hp).
    + change ".."%string with ("." +:+ ".")%string in Hp.
      rewrite <- app_assoc_s in Hp.
      apply (proj1 (HasSuffix_false _ _) Hno (p +:+ ".") Hp).
Qed.

Lemma cname_target_witness :
  Answer (respondMsg (query "www.example.com.") "cname.example.org.")
  = [Some (RR_CNAME (header {| Name := "www.example.com."; Qtype := TypeA;
                                Qclass := ClassINET |} TypeCNAME)
                     "cname.example.org.")].
Proof.
  destruct (cname_target udpClient (query "www.example.com.") "cname.example.org."
              (start (failing 0 (query "www.example.com."))) eq_refl)
    as (_ & _ & -> & _).
  reflexivity.
Defined.

(** C8 as stated fails: of the two trailing dots of the literal below one
    is removed and one appended, so that the target does not end in
    exactly one dot, and is not [cname.example.org.]. *)
Lemma cname_target_counterexample :
  Net.ParseIP "cname.example.org.." = None
  /\ Answer (respondMsg (query "www.example.com.") "cname.example.org..")
     = [Some (RR_CNAME (header {| Name := "www.example.com."; Qtype := TypeA;
                                  Qclass := ClassINET |} TypeCNAME)
                       "cname.example.org..")]
  /\ Strings.HasSuffix "cname.example.org.." ".." = true.
Proof. repeat split; reflexivity. Qed.

(** ** C9: the index [req.Question[0]] *)

(** C9 (amended). [handleDNS] indexes [req.Question[0]] without a guard,
    in the matching loop at every key other than ["."] and on the path
    without handler.  It panics exactly when the question section is empty
    and the configuration has a key other than ["."] or lacks the key
    ["."]: with a question it always returns, and so it does without one
    when ["."] is the only key. *)
Theorem question_index_unguarded w req config order s :
  rangeOrder config order ->
  handleDNS w req config order s = None
  <-> Question req = []
      /\ ((exists k v, Handlers config !! k = Some v /\ k <> "."%string)
          \/ Handlers config !! "."%string = None).
Proof.
  intros Hord. split.
  - intros Hpanic.
    destruct (rangeHandlers order req) as [[[k v]|]|] eqn:Hloop.
    + destruct (handleDNS_matched_total w req config order k v s) as [s' Hs'];
        [unfold determineConfig; by rewrite Hloop|congruence].
    + destruct (Handlers config !! "."%string) as [d|] eqn:Hd.
      * destruct (handleDNS_matched_total w req config order "." d s) as [s' Hs'];
          [unfold determineConfig; by rewrite Hloop, Hd|congruence].
      * destruct (Question req) as [|q0 rest] eqn:Hq; [by auto|].
        rewrite (handleDNS_unmatched w req config order q0 rest) in Hpanic;
          [discriminate|unfold determineConfig; by rewrite Hloop, Hd|done].
    + apply rangeHandlers_panic in Hloop as (Hq & k & v & Hin & Hk).
      split; [done|]. left. exists k, v.
      split; [by apply (rangeOrder_lookup _ _ _ _ Hord)|done].
  - intros [Hq Hcase].
    destruct (rangeHandlers order req) as [[[k v]|]|] eqn:Hloop.
    + apply rangeHandlers_found in Hloop as (q0 & rest & Hq0 & _). congruence.
    + destruct Hcase as [(k & v & Hkv & Hk)|Hd].
      * apply (rangeOrder_lookup _ _ _ _ Hord) in Hkv.
        rewrite (rangeHandlers_empty_panic req order k v Hq Hkv Hk) in Hloop.
        discriminate.
      * unfold handleDNS, bind, liftOpt, determineConfig. by rewrite Hloop, Hd, Hq.
    + unfold handleDNS, bind, liftOpt, determineConfig. by rewrite Hloop.
Qed.

Lemma question_index_unguarded_witness :
  handleDNS udpClient emptyQuery (configOf twoHandlers) twoHandlers
    (start (failing 0 emptyQuery)) = None.
Proof.
  apply (question_index_unguarded udpClient emptyQuery (configOf twoHandlers)
           twoHandlers (start (failing 0 emptyQuery)) twoHandlers_order).
  split; [reflexivity|]. left.
  exists "example.com"%string, (policy "" "203.0.113.5" None "" "").
  split; [|discriminate].
  apply (rangeOrder_lookup _ _ _ _ twoHandlers_order). unfold twoHandlers.
  apply list_elem_of_further, list_elem_of_here.
Defined.

(** C9 as stated fails: the configuration below has the key ["."] alone;
    a query with an empty question section is dispatched without any
    access to [Question[0]], the loop skipping its only key, and the
    dispatch returns after the notification. *)
Lemma question_index_unguarded_counterexample :
  Question emptyQuery = []
  /\ rangeOrder (configOf defaultOnly) defaultOnly
  /\ handleDNS udpClient emptyQuery (configOf defaultOnly) defaultOnly
       (start (failing 0 emptyQuery))
     = Some (tt, after (start (failing 0 emptyQuery))
                   [EvSlack "https://hooks.example/T0"
                      (notifyBody udpClient emptyQuery)]).
Proof.
  split; [reflexivity|]. split; [exact defaultOnly_order|].
  unfold handleDNS, bind, liftOpt, determineConfig. simpl.
  unfold configOf, defaultOnly. simpl.
  rewrite lookup_insert_eq. reflexivity.
Qed.

(** ** C10: selection by the first question *)

(** C10. Two queries whose first questions bear the same name select the
    same handler under the same key, whatever their other questions, and
    are therefore given the same action; the synthesizer still answers
    every question of the query it is given: its reply holds one record
    per question, in order, each built from the one literal. *)
Theorem selection_by_first_question w config order req req' respond s :
  Name <$> head (Question req) = Name <$> head (Question req') ->
  determineConfig config order req = determineConfig config order req'
  /\ (forall ck c, determineConfig config order req = Some (Some (ck, c)) ->
        handleDNS w req' config order
        = (act w req' ck c ;;; notify w req' c config))
  /\ handleRespond w req respond s = Some (tt, after s (respondEvents req respond))
  /\ written (respondEvents req respond) = [respondMsg req respond]
  /\ Answer (respondMsg req respond)
     = map (fun q => Some (answerFor q respond)) (Question req)
  /\ length (Answer (respondMsg req respond)) = length (Question req).
Proof.
  intros Hname.
  assert (determineConfig config order req = determineConfig config order req') as Hsame
    by (unfold determineConfig; by rewrite (rangeHandlers_first_name order req req')).
  split; [done|]. split.
  - intros ck c Hm. rewrite Hsame in Hm.
    unfold handleDNS. unfold bind at 1, liftOpt. rewrite Hm. reflexivity.
  - split; [apply handleRespond_run|]. split; [apply written_respondEvents|].
    split; [reflexivity|]. simpl. by rewrite length_map.
Qed.

Lemma selection_by_first_question_witness :
  determineConfig (configOf twoHandlers) twoHandlers
    (twoQuestions "www.example.com." "www.example.org.")
  = determineConfig (configOf twoHandlers) twoHandlers (query "www.example.com.")
  /\ length (Answer (respondMsg (twoQuestions "www.example.com." "www.example.org.")
                       "203.0.113.5")) = 2%nat.
Proof.
  destruct (selection_by_first_question udpClient (configOf twoHandlers) twoHandlers
              (twoQuestions "www.example.com." "www.example.org.")
              (query "www.example.com.") "203.0.113.5"
              (start (failing 0 (query "www.example.com."))) eq_refl)
    as (Hsel & _ & _ & _ & _ & Hlen).
  split; [exact Hsel|exact Hlen].
Defined.

(** ** Further properties of the dispatcher *)

(** What [act] does, by the fields of the policy. *)
Lemma act_shape w req ck c s :
  (nonEmpty (Redirect c) = true
   /\ act w req ck c s
      = Some (tt, afterExchanges s
                    (redirectEvents w req (Redirect c) (upstream s (exchanges s))
                       (upstream s (S (exchanges s)))).1
                    (redirectEvents w req (Redirect c) (upstream s (exchanges s))
                       (upstream s (S (exchanges s)))).2))
  \/ (nonEmpty (Redirect c) = false /\ nonEmpty (Respond c) = true
      /\ act w req ck c s = Some (tt, after s (respondEvents req (Respond c))))
  \/ (nonEmpty (Redirect c) = false /\ nonEmpty (Respond c) = false
      /\ exists rc respond,
           Rebind c = Some rc /\ Addrs rc <> []
           /\ Addrs rc !! Z.to_nat (wrap64 (counter s ck) mod Z.of_nat (length (Addrs rc)))
              = Some respond
           /\ act w req ck c s = Some (tt, afterRebind s ck (respondEvents req respond)))
  \/ (nonEmpty (Redirect c) = false /\ nonEmpty (Respond c) = false
      /\ rebindAddrs c = [] /\ act w req ck c s = Some (tt, s)).
Proof.
  destruct (nonEmpty (Redirect c)) eqn:Hrd.
  - left. split; [done|]. rewrite act_redirect by done.
    pose proof (handleRedirect_run w req (Redirect c) s) as Hrun.
    by destruct (redirectEvents _ _ _ _ _) as [n evs].
  - right. destruct (nonEmpty (Respond c)) eqn:Hrs.
    + left. repeat split; try done. rewrite act_respond by done.
      apply handleRespond_run.
    + right. unfold rebindAddrs. destruct (Rebind c) as [rc|] eqn:Hrc.
      * destruct (Addrs rc) as [|a l] eqn:Ha.
        -- right. repeat split; try done. apply act_nothing; auto.
           intros rc0 Hrc0. rewrite Hrc in Hrc0. by injection Hrc0 as <-.
        -- left. split; [done|]. split; [done|].
           destruct (act_rebind w req ck c rc s Hrd Hrs Hrc) as (respond & Hl & Hrun);
             [rewrite Ha; simpl; lia|].
           exists rc, respond. rewrite Ha in *. repeat split; try done.
      * right. repeat split; try done. apply act_nothing; auto.
        intros rc0 Hrc0. rewrite Hrc in Hrc0. discriminate.
Qed.

Lemma redirectEvents_facts w req redirect first second :
  length (written (redirectEvents w req redirect first second).2) = 1%nat
  /\ notified (redirectEvents w req redirect first second).2 = []
  /\ (warned (redirectEvents w req redirect first second).2 <> []
      <-> written (redirectEvents w req redirect first second).2 = [serverFailure req]).
Proof.
  unfold redirectEvents. destruct first as [r|e]; [|destruct second as [r|e']];
    simpl; repeat split; try done; intros H; try done;
    injection H as H; apply (f_equal Compress) in H; discriminate.
Qed.

Lemma respondEvents_facts req respond :
  notified (respondEvents req respond) = []
  /\ warned (respondEvents req respond) = []
  /\ exchanged (respondEvents req respond) = [].
Proof.
  unfold respondEvents, notified, warned, exchanged.
  rewrite !List.filter_app. simpl.
  induction (Question req) as [|q qs IH]; [done|exact IH].
Qed.

Lemma notifyEvents_facts w req c :
  warned (notifyEvents w req c) = [] /\ exchanged (notifyEvents w req c) = []
  /\ notified (notifyEvents w req c) = notifyEvents w req c.
Proof.
  unfold notifyEvents.
  by destruct (nonEmpty (NotifyEmail c)), (nonEmpty (NotifySlack c)).
Qed.

Lemma notified_app a b : notified (a ++ b) = notified a ++ notified b.
Proof. apply List.filter_app. Qed.

Lemma warned_app a b : warned (a ++ b) = warned a ++ warned b.
Proof. apply List.filter_app. Qed.

(** The loop passes over the keys that are ["."] or do not match. *)
Lemma rangeHandlers_skip req q0 qs pre order :
  Question req = q0 :: qs ->
  (forall k v, (k, v) ∈ pre -> k = "."%string \/ keyMatches (Name q0) k = false) ->
  rangeHandlers (pre ++ order) req = rangeHandlers order req.
Proof.
  intros Hq. induction pre as [|[k v] pre IH]; simpl; [done|].
  intros Hpre.
  assert (rangeHandlers (pre ++ order) req = rangeHandlers order req) as ->
    by (apply IH; intros k' v' Hin; apply (Hpre k' v'); by apply list_elem_of_further).
  destruct (Hpre k v (list_elem_of_here _ _)) as [->|Hno]; [done|].
  rewrite Hq, Hno. by destruct (k =? ".")%string.
Qed.

Lemma rangeHandlers_here req q0 qs k v order :
  Question req = q0 :: qs -> k <> "."%string -> keyMatches (Name q0) k = true ->
  rangeHandlers ((k, v) :: order) req = Some (Some (k, v)).
Proof.
  intros Hq Hk Hm. simpl. rewrite Hq, Hm.
  by destruct (String.eqb_spec k ".").
Qed.

(** *** Notifications *)

(** X2. For a matched policy the dispatch returns, and its events are
    those of the action, none of which is a notification, followed by the
    notifications, none of which is a reply: an email when [NotifyEmail]
    is set, then a Slack message when [NotifySlack] is set, both with the
    one body.  This holds whatever the action is and however it ends, a
    failed forward included. *)
Theorem notifications_follow_reply w req config order ck c s :
  determineConfig config order req = Some (Some (ck, c)) ->
  exists s' aevs nevs,
    handleDNS w req config order s = Some (tt, s')
    /\ trace s' = trace s ++ aevs ++ nevs
    /\ notified aevs = []
    /\ written nevs = []
    /\ nevs = (if decide (NotifyEmail c = ""%string) then []
               else [EvEmail (NotifyEmail c) (notifyBody w req)])
              ++ (if decide (NotifySlack c = ""%string) then []
                  else [EvSlack (NotifySlack c) (notifyBody w req)]).
Proof.
  intros Hm. rewrite (handleDNS_matched _ _ _ _ _ _ _ Hm). unfold bind.
  assert (notifyEvents w req c
          = (if decide (NotifyEmail c = ""%string) then []
             else [EvEmail (NotifyEmail c) (notifyBody w req)])
            ++ (if decide (NotifySlack c = ""%string) then []
                else [EvSlack (NotifySlack c) (notifyBody w req)])) as Hn.
  { unfold notifyEvents.
    destruct (decide (NotifyEmail c = ""%string)) as [He|He],
             (decide (NotifySlack c = ""%string)) as [Hs|Hs].
    - apply nonEmpty_false in He, Hs. by rewrite He, Hs.
    - apply nonEmpty_false in He. apply nonEmpty_true in Hs. by rewrite He, Hs.
    - apply nonEmpty_true in He. apply nonEmpty_false in Hs. by rewrite He, Hs.
    - apply nonEmpty_true in He, Hs. by rewrite He, Hs. }
  destruct (act_shape w req ck c s)
    as [(_ & ->)|[(_ & _ & ->)|[(_ & _ & rc & respond & _ & _ & _ & ->)|(_ & _ & _ & ->)]]];
    rewrite notify_run.
  - eexists _, _, (notifyEvents w req c). split; [reflexivity|].
    split; [simpl; by rewrite app_assoc|].
    split; [apply redirectEvents_facts|].
    split; [apply written_notifyEvents|exact Hn].
  - eexists _, (respondEvents req (Respond c)), (notifyEvents w req c).
    split; [reflexivity|]. split; [simpl; by rewrite app_assoc|].
    split; [apply respondEvents_facts|].
    split; [apply written_notifyEvents|exact Hn].
  - eexists _, (respondEvents req respond), (notifyEvents w req c).
    split; [reflexivity|]. split; [simpl; by rewrite app_assoc|].
    split; [apply respondEvents_facts|].
    split; [apply written_notifyEvents|exact Hn].
  - eexists _, [], (notifyEvents w req c).
    split; [reflexivity|]. split; [done|]. split; [done|].
    split; [apply written_notifyEvents|exact Hn].
Qed.

(** A forward that fails twice is still notified, by email and by Slack,
    after the server-failure reply. *)
Lemma notifications_follow_reply_witness :
  trace ∘ snd <$>
    handleDNS udpClient (query "www.example.net.")
      (configOf [("example.net"%string, forwardAndNotify)])
      [("example.net"%string, forwardAndNotify)]
      (start (failing 2 (query "www.example.net.")))
  = Some [redirectLog udpClient;
          EvExchange "udp" (query "www.example.net.") "198.51.100.1:53";
          retryLog;
          EvExchange "udp" (query "www.example.net.") "198.51.100.1:53";
          failureLog "i/o timeout";
          EvWriteMsg (serverFailure (query "www.example.net."));
          EvEmail "ops@example.net" (notifyBody udpClient (query "www.example.net."));
          EvSlack "https://hooks.example/T0"
            (notifyBody udpClient (query "www.example.net."))].
Proof.
  destruct (notifications_follow_reply udpClient (query "www.example.net.")
              (configOf [("example.net"%string, forwardAndNotify)])
              [("example.net"%string, forwardAndNotify)] "example.net"
              forwardAndNotify (start (failing 2 (query "www.example.net."))) eq_refl)
    as (s' & aevs & nevs & Hrun & _).
  rewrite Hrun. simpl. injection Hrun as <-. reflexivity.
Defined.

(** *** One reply at most *)

(** X3. A dispatch of a query with a question returns and writes at most
    one reply to the client; it writes none exactly when the query matched
    a policy without redirect, respond and rebind addresses. *)
Theorem one_reply_at_most w req config order q0 rest s :
  Question req = q0 :: rest ->
  exists s' evs,
    handleDNS w req config order s = Some (tt, s')
    /\ trace s' = trace s ++ evs
    /\ (length (written evs) <= 1)%nat
    /\ (written evs = []
        <-> exists ck c, determineConfig config order req = Some (Some (ck, c))
                         /\ Redirect c = ""%string /\ Respond c = ""%string
                         /\ rebindAddrs c = []).
Proof.
  intros Hq.
  destruct (determineConfig config order req) as [[[ck c]|]|] eqn:Hm.
  - rewrite (handleDNS_matched _ _ _ _ _ _ _ Hm). unfold bind.
    destruct (act_shape w req ck c s)
      as [(Hrd & ->)|[(Hrd & Hrs & ->)|[(Hrd & Hrs & rc & respond & Hrc & Ha & _ & ->)
                                       |(Hrd & Hrs & Hrb & ->)]]];
      rewrite notify_run.
    + eexists _, (_ ++ notifyEvents w req c). split; [reflexivity|].
      split; [simpl; by rewrite app_assoc|].
      destruct (redirectEvents_facts w req (Redirect c) (upstream s (exchanges s))
                  (upstream s (S (exchanges s)))) as (Hone & _).
      rewrite written_app, written_notifyEvents, app_nil_r.
      split; [lia|]. split.
      * intros Hnil. rewrite Hnil in Hone. discriminate.
      * intros (ck' & c' & [= <- <-] & Hr & _). apply nonEmpty_true in Hrd. done.
    + eexists _, (respondEvents req (Respond c) ++ notifyEvents w req c).
      split; [reflexivity|]. split; [simpl; by rewrite app_assoc|].
      rewrite written_app, written_respondEvents, written_notifyEvents.
      split; [simpl; lia|]. split; [discriminate|].
      intros (ck' & c' & [= <- <-] & _ & Hr & _). apply nonEmpty_true in Hrs. done.
    + eexists _, (respondEvents req respond ++ notifyEvents w req c).
      split; [reflexivity|]. split; [simpl; by rewrite app_assoc|].
      rewrite written_app, written_respondEvents, written_notifyEvents.
      split; [simpl; lia|]. split; [discriminate|].
      intros (ck' & c' & [= <- <-] & _ & _ & Hr). unfold rebindAddrs in Hr.
      rewrite Hrc in Hr. done.
    + eexists _, (notifyEvents w req c). split; [reflexivity|]. split; [done|].
      rewrite written_notifyEvents. split; [simpl; lia|]. split; [|done].
      intros _. exists ck, c. apply nonEmpty_false in Hrd, Hrs. done.
  - rewrite (handleDNS_unmatched w req config order q0 rest s Hm Hq).
    eexists _, _. split; [reflexivity|]. split; [done|].
    split; [simpl; lia|]. split; [discriminate|].
    intros (ck & c & [=] & _).
  - unfold determineConfig in Hm.
    destruct (rangeHandlers order req) as [[kv|]|] eqn:Hloop.
    + discriminate.
    + destruct (Handlers config !! "."%string); discriminate.
    + apply rangeHandlers_panic in Hloop as [Hq' _]. congruence.
Qed.

Lemma one_reply_at_most_witness :
  exists s' evs,
    handleDNS tcpClient (query "www.example.org.") (configOf twoHandlers) twoHandlers
      (start (failing 0 (query "www.example.org."))) = Some (tt, s')
    /\ trace s' = [] ++ evs /\ (length (written evs) <= 1)%nat.
Proof.
  destruct (one_reply_at_most tcpClient (query "www.example.org.")
              (configOf twoHandlers) twoHandlers _ []
              (start (failing 0 (query "www.example.org."))) eq_refl)
    as (s' & evs & Hrun & Htr & Hle & _).
  exists s', evs. split; [exact Hrun|]. split; [exact Htr|exact Hle].
Defined.

(** *** Warnings *)

(** X4. A dispatch of a query with a question logs a warning exactly when
    the reply it writes is the dispatcher's own server-failure reply,
    which happens without handler and after two failed exchanges; it never
    logs more than one. *)
Theorem warning_iff_server_failure w req config order q0 rest s :
  Question req = q0 :: rest ->
  exists s' evs,
    handleDNS w req config order s = Some (tt, s')
    /\ trace s' = trace s ++ evs
    /\ (length (warned evs) <= 1)%nat
    /\ (warned evs <> [] <-> written evs = [serverFailure req]).
Proof.
  intros Hq.
  destruct (determineConfig config order req) as [[[ck c]|]|] eqn:Hm.
  - rewrite (handleDNS_matched _ _ _ _ _ _ _ Hm). unfold bind.
    destruct (notifyEvents_facts w req c) as (Hwn & _ & _).
    destruct (act_shape w req ck c s)
      as [(Hrd & ->)|[(Hrd & Hrs & ->)|[(Hrd & Hrs & rc & respond & Hrc & Ha & _ & ->)
                                       |(Hrd & Hrs & Hrb & ->)]]];
      rewrite notify_run.
    + eexists _, (_ ++ notifyEvents w req c). split; [reflexivity|].
      split; [simpl; by rewrite app_assoc|].
      rewrite warned_app, written_app, Hwn, written_notifyEvents, !app_nil_r.
      split; [|apply redirectEvents_facts].
      unfold redirectEvents.
      destruct (upstream s (exchanges s)); [|destruct (upstream s (S (exchanges s)))];
        simpl; lia.
    + destruct (respondEvents_facts req (Respond c)) as (_ & Hw & _).
      eexists _, (respondEvents req (Respond c) ++ notifyEvents w req c).
      split; [reflexivity|]. split; [simpl; by rewrite app_assoc|].
      rewrite warned_app, written_app, Hwn, Hw, written_respondEvents,
        written_notifyEvents.
      split; [simpl; lia|]. split; [done|].
      intros H. apply (f_equal (fmap Rcode)) in H. discriminate.
    + destruct (respondEvents_facts req respond) as (_ & Hw & _).
      eexists _, (respondEvents req respond ++ notifyEvents w req c).
      split; [reflexivity|]. split; [simpl; by rewrite app_assoc|].
      rewrite warned_app, written_app, Hwn, Hw, written_respondEvents,
        written_notifyEvents.
      split; [simpl; lia|]. split; [done|].
      intros H. apply (f_equal (fmap Rcode)) in H. discriminate.
    + eexists _, (notifyEvents w req c). split; [reflexivity|]. split; [done|].
      rewrite Hwn, written_notifyEvents. split; [simpl; lia|]. split; done.
  - rewrite (handleDNS_unmatched w req config order q0 rest s Hm Hq).
    eexists _, _. split; [reflexivity|]. split; [done|].
    split; [simpl; lia|]. split; done.
  - unfold determineConfig in Hm.
    destruct (rangeHandlers order req) as [[kv|]|] eqn:Hloop.
    + discriminate.
    + destruct (Handlers config !! "."%string); discriminate.
    + apply rangeHandlers_panic in Hloop as [Hq' _]. congruence.
Qed.

Lemma warning_iff_server_failure_witness :
  exists s' evs,
    handleDNS udpClient (query "www.example.net.")
      (configOf [("example.net"%string, forwardAndNotify)])
      [("example.net"%string, forwardAndNotify)]
      (start (failing 2 (query "www.example.net."))) = Some (tt, s')
    /\ trace s' = [] ++ evs
    /\ (warned evs <> [] <-> written evs = [serverFailure (query "www.example.net.")]).
Proof.
  destruct (warning_iff_server_failure udpClient (query "www.example.net.")
              (configOf [("example.net"%string, forwardAndNotify)])
              [("example.net"%string, forwardAndNotify)] _ []
              (start (failing 2 (query "www.example.net."))) eq_refl)
    as (s' & evs & Hrun & Htr & _ & Hiff).
  exists s', evs. split; [exact Hrun|]. split; [exact Htr|exact Hiff].
Defined.

(** *** Several matching keys *)

(** X5. Among the keys other than ["."] that match the first name of the
    query, the one the loop visits first is selected, whatever the lengths
    of the keys: of two matching keys each is selected by the order that
    visits it before the other. *)
Theorem first_visited_key_wins config req q0 qs k v :
  Question req = q0 :: qs ->
  k <> "."%string -> keyMatches (Name q0) k = true ->
  (forall pre rest,
     (forall k' v', (k', v') ∈ pre ->
        k' = "."%string \/ keyMatches (Name q0) k' = false) ->
     determineConfig config (pre ++ (k, v) :: rest) req = Some (Some (k, v)))
  /\ (forall k2 v2 rest,
        k2 <> "."%string -> keyMatches (Name q0) k2 = true ->
        determineConfig config ((k, v) :: (k2, v2) :: rest) req = Some (Some (k, v))
        /\ determineConfig config ((k2, v2) :: (k, v) :: rest) req
           = Some (Some (k2, v2))
        /\ (k2, v2) :: (k, v) :: rest ≡ₚ (k, v) :: (k2, v2) :: rest).
Proof.
  intros Hq Hk Hm. split.
  - intros pre rest Hpre. unfold determineConfig.
    rewrite (rangeHandlers_skip req q0 qs pre _ Hq Hpre).
    by rewrite (rangeHandlers_here req q0 qs k v rest Hq Hk Hm).
  - intros k2 v2 rest Hk2 Hm2. unfold determineConfig.
    rewrite (rangeHandlers_here req q0 qs k v _ Hq Hk Hm).
    rewrite (rangeHandlers_here req q0 qs k2 v2 _ Hq Hk2 Hm2).
    repeat split. apply perm_swap.
Qed.

Lemma first_visited_key_wins_witness :
  determineConfig (configOf nested) nested (query "a.sub.example.com.")
  = Some (Some ("example.com"%string, policy "" "203.0.113.5" None "" ""))
  /\ determineConfig (configOf nested) (reverse nested) (query "a.sub.example.com.")
     = Some (Some ("sub.example.com"%string, policy "" "203.0.113.6" None "" "")).
Proof.
  destruct (first_visited_key_wins (configOf nested) (query "a.sub.example.com.") _ []
              "example.com" (policy "" "203.0.113.5" None "" "") eq_refl)
    as (_ & Hswap); [discriminate|reflexivity|].
  destruct (Hswap "sub.example.com"%string (policy "" "203.0.113.6" None "" "") [])
    as (H1 & H2 & _); [discriminate|reflexivity|].
  split; [exact H1|exact H2].
Defined.

(** X6. When one key other than ["."] matches the first name of the query
    and no other does, every order of the loop selects that key and its
    policy. *)
Theorem single_match_any_order config order req q0 qs k v :
  rangeOrder config order ->
  Question req = q0 :: qs ->
  Handlers config !! k = Some v -> k <> "."%string ->
  keyMatches (Name q0) k = true ->
  (forall k' v', Handlers config !! k' = Some v' -> k' <> "."%string ->
     keyMatches (Name q0) k' = true -> k' = k) ->
  determineConfig config order req = Some (Some (k, v)).
Proof.
  intros Hord Hq Hkv Hk Hm Huniq.
  apply (rangeOrder_lookup _ _ _ _ Hord) in Hkv as Hin.
  destruct (rangeHandlers_some req order q0 qs k v Hq Hin Hk Hm) as (k' & v' & Hloop).
  unfold determineConfig. rewrite Hloop.
  destruct (rangeHandlers_found req order k' v' Hloop)
    as (q1 & qs1 & Hq1 & Hin' & Hk' & Hm').
  rewrite Hq in Hq1. injection Hq1 as <- <-.
  apply (rangeOrder_lookup _ _ _ _ Hord) in Hin'.
  assert (k' = k) as -> by (by apply (Huniq k' v')).
  rewrite Hkv in Hin'. by injection Hin' as <-.
Qed.

Lemma single_match_any_order_witness :
  determineConfig (configOf twoHandlers) twoHandlers (query "WWW.Example.Com.")
  = Some (Some ("example.com"%string, policy "" "203.0.113.5" None "" "")).
Proof.
  apply (single_match_any_order (configOf twoHandlers) twoHandlers
           (query "WWW.Example.Com.") _ [] "example.com"
           (policy "" "203.0.113.5" None "" "") twoHandlers_order eq_refl).
  - apply (rangeOrder_lookup _ _ _ _ twoHandlers_order). unfold twoHandlers.
    apply list_elem_of_further, list_elem_of_here.
  - discriminate.
  - reflexivity.
  - intros k' v' Hkv Hk' _.
    apply (rangeOrder_lookup _ _ _ _ twoHandlers_order) in Hkv.
    unfold twoHandlers in Hkv.
    apply elem_of_cons in Hkv as [[= -> ->]|Hkv]; [done|].
    apply elem_of_cons in Hkv as [[= -> ->]|Hkv]; [done|].
    by apply elem_of_nil in Hkv.
Defined.

(** *** The synthesizer and the questions *)

(** X7. The synthesizer reads nothing of a question but its name: two
    queries whose questions bear the same names, in order, are written the
    same answer section for a literal, whatever the types and classes
    asked, and every record is of class INET. *)
Theorem question_type_ignored w w' req req' respond s s' :
  map Name (Question req) = map Name (Question req') ->
  exists m m',
    handleRespond w req respond s
      = Some (tt, after s (map (fun q => respondLog q respond) (Question req)
                           ++ [EvWriteMsg m]))
    /\ handleRespond w' req' respond s'
       = Some (tt, after s' (map (fun q => respondLog q respond) (Question req')
                             ++ [EvWriteMsg m']))
    /\ Answer m = Answer m'
    /\ (forall rr, Some rr ∈ Answer m -> Class (Header rr) = ClassINET).
Proof.
  intros Hn. exists (respondMsg req respond), (respondMsg req' respond).
  split; [apply handleRespond_run|]. split; [apply handleRespond_run|].
  assert (forall q q', Name q = Name q' -> answerFor q respond = answerFor q' respond)
    as Hsame.
  { intros q q' Hq. unfold answerFor. rewrite Hq.
    destruct (Net.ParseIP respond) as [ip|]; [|done]. by destruct (Net.To4 ip). }
  split.
  - simpl. revert Hn. generalize (Question req'). 
    induction (Question req) as [|q qs IH]; intros [|q' qs']; simpl; try done.
    intros [= Hq Hqs]. f_equal; [f_equal; by apply Hsame|by apply IH].
  - simpl. intros rr Hin. apply list_elem_of_fmap in Hin as (q & [= ->] & _).
    apply answerFor_header.
Qed.

(** A question of type AAAA gets the A record of a question of type A. *)
Lemma question_type_ignored_witness :
  Answer (respondMsg (asking "www.example.com." TypeAAAA) "203.0.113.5")
  = Answer (respondMsg (asking "www.example.com." TypeA) "203.0.113.5").
Proof.
  destruct (question_type_ignored udpClient udpClient
              (asking "www.example.com." TypeAAAA) (asking "www.example.com." TypeA)
              "203.0.113.5" (start (failing 0 (query "www.example.com.")))
              (start (failing 0 (query "www.example.com."))) eq_refl)
    as (m & m' & Hr & Hr' & Heq & _).
  rewrite handleRespond_run in Hr, Hr'.
  unfold respondEvents in Hr, Hr'. simpl in Hr, Hr'.
  injection Hr as <-. injection Hr' as <-. exact Heq.
Defined.

(** X8. For a query without question the synthesizer logs nothing and
    still writes one reply, of success status and with an empty answer
    section. *)
Theorem respond_without_question w req respond s :
  Question req = [] ->
  exists m, handleRespond w req respond s = Some (tt, after s [EvWriteMsg m])
            /\ Rcode m = RcodeSuccess /\ Answer m = [].
Proof.
  intros Hq. exists (respondMsg req respond).
  rewrite handleRespond_run. unfold respondEvents, respondMsg. simpl.
  rewrite Hq. simpl. done.
Qed.

Lemma respond_without_question_witness :
  exists m, handleRespond udpClient emptyQuery "203.0.113.5" (start (failing 0 emptyQuery))
            = Some (tt, after (start (failing 0 emptyQuery)) [EvWriteMsg m])
            /\ Answer m = [].
Proof.
  destruct (respond_without_question udpClient emptyQuery "203.0.113.5"
              (start (failing 0 emptyQuery)) eq_refl) as (m & Hrun & _ & Ha).
  exists m. split; [exact Hrun|exact Ha].
Defined.

(** *** IPv4-mapped literals *)

Lemma To4_mapped (ip4 : list Z) :
  length ip4 = 4%nat -> Net.To4 (Net.v4InV6Prefix ++ ip4) = Some ip4.
Proof.
  destruct ip4 as [|a [|b [|c0 [|d [|]]]]]; try discriminate. reflexivity.
Qed.

(** X1. A literal that parses to an IPv4-mapped address, as the dotted
    notation and the notation [::ffff:a.b.c.d] both do, is answered with A
    records only, one per question, holding the parsed address: the
    IPv6 notation of the literal does not make the record an AAAA
    record. *)
Theorem mapped_literal_is_A req respond ip4 :
  Net.ParseIP respond = Some (Net.v4InV6Prefix ++ ip4) ->
  length ip4 = 4%nat ->
  Answer (respondMsg req respond)
  = map (fun q => Some (RR_A (header q TypeA) (Net.v4InV6Prefix ++ ip4)))
        (Question req).
Proof.
  intros Hp Hlen. simpl. apply map_ext. intros q.
  unfold answerFor. by rewrite Hp, (To4_mapped ip4 Hlen).
Qed.

Lemma mapped_literal_is_A_witness :
  Answer (respondMsg (query "www.example.com.") "::ffff:203.0.113.5")
  = Answer (respondMsg (query "www.example.com.") "203.0.113.5").
Proof.
  rewrite (mapped_literal_is_A (query "www.example.com.") "::ffff:203.0.113.5"
             [203; 0; 113; 5] eq_refl eq_refl).
  reflexivity.
Defined.

(** *** The counters of the rebind map *)

(** X9. A dispatch that matched under the key [ck] leaves the counter of
    every other key as it was; it leaves the whole map as it was unless
    the rebind branch runs, and then the counter of [ck] is its former
    value, 0 if it had none, plus one modulo [2^64]. *)
Theorem rebind_counter_frame w req config order ck c s :
  determineConfig config order req = Some (Some (ck, c)) ->
  exists s',
    handleDNS w req config order s = Some (tt, s')
    /\ (forall k', k' <> ck -> RebindMap s' !! k' = RebindMap s !! k')
    /\ (Redirect c <> ""%string \/ Respond c <> ""%string \/ rebindAddrs c = [] ->
          RebindMap s' = RebindMap s)
    /\ (Redirect c = ""%string -> Respond c = ""%string -> rebindAddrs c <> [] ->
          RebindMap s' !! ck = Some (wrap64 (counter s ck + 1))).
Proof.
  intros Hm. rewrite (handleDNS_matched _ _ _ _ _ _ _ Hm). unfold bind.
  destruct (act_shape w req ck c s)
    as [(Hrd & ->)|[(Hrd & Hrs & ->)|[(Hrd & Hrs & rc & respond & Hrc & Ha & _ & ->)
                                     |(Hrd & Hrs & Hrb & ->)]]];
    rewrite notify_run; eexists; (split; [reflexivity|]); simpl.
  - apply nonEmpty_true in Hrd. repeat split; done.
  - apply nonEmpty_false in Hrd. apply nonEmpty_true in Hrs. repeat split; done.
  - apply nonEmpty_false in Hrd, Hrs. split; [|split].
    + intros k' Hk'. by rewrite lookup_insert_ne.
    + intros [?|[?|Hno]]; [done|done|]. unfold rebindAddrs in Hno.
      rewrite Hrc in Hno. done.
    + intros _ _ _. by rewrite lookup_insert_eq.
  - apply nonEmpty_false in Hrd, Hrs. repeat split; done.
Qed.

Lemma rebind_counter_frame_witness :
  exists s',
    handleDNS udpClient (query "rebind.test.") (configOf rebindHandlers)
      rebindHandlers otherCounters = Some (tt, s')
    /\ RebindMap s' !! "other.test"%string = Some 7
    /\ RebindMap s' !! "rebind.test"%string = Some 1.
Proof.
  destruct (rebind_counter_frame udpClient (query "rebind.test.")
              (configOf rebindHandlers) rebindHandlers "rebind.test" rebindTest
              otherCounters eq_refl)
    as (s' & Hrun & Hframe & _ & Hstep).
  exists s'. split; [exact Hrun|]. split.
  - rewrite Hframe by discriminate. reflexivity.
  - rewrite Hstep by done. reflexivity.
Defined.

(** X10. The counter belongs to the key, not to the name queried nor to
    the client: when two queries match the same rebind policy under the
    same key, the second of two successive dispatches is answered with the
    address that follows the address of the first. *)
Theorem rebind_counter_shared w1 w2 req1 req2 config order1 order2 k c rc s :
  determineConfig config order1 req1 = Some (Some (k, c)) ->
  determineConfig config order2 req2 = Some (Some (k, c)) ->
  Redirect c = ""%string -> Respond c = ""%string ->
  Rebind c = Some rc -> Addrs rc <> [] ->
  exists s1 s2 a1 a2,
    handleDNS w1 req1 config order1 s = Some (tt, s1)
    /\ handleDNS w2 req2 config order2 s1 = Some (tt, s2)
    /\ Addrs rc !! Z.to_nat (wrap64 (counter s k) mod Z.of_nat (length (Addrs rc)))
       = Some a1
    /\ Addrs rc !! Z.to_nat (wrap64 (counter s k + 1) mod Z.of_nat (length (Addrs rc)))
       = Some a2
    /\ written (trace s1) = written (trace s) ++ [respondMsg req1 a1]
    /\ written (trace s2) = written (trace s1) ++ [respondMsg req2 a2].
Proof.
  intros Hm1 Hm2 Hrd Hrs Hrc Ha.
  destruct (rebind_dispatch w1 req1 config order1 k c rc Hm1 Hrd Hrs Hrc Ha s)
    as (a1 & Hl1 & Hrun1).
  destruct (rebind_dispatch w2 req2 config order2 k c rc Hm2 Hrd Hrs Hrc Ha
              (after (afterRebind s k (respondEvents req1 a1)) (notifyEvents w1 req1 c)))
    as (a2 & Hl2 & Hrun2).
  eexists _, _, a1, a2. split; [exact Hrun1|]. split; [exact Hrun2|].
  split; [exact Hl1|]. split.
  - assert (counter (after (afterRebind s k (respondEvents req1 a1))
                       (notifyEvents w1 req1 c)) k = wrap64 (counter s k + 1)) as Hc
      by (unfold counter at 1; simpl; by rewrite lookup_insert_eq).
    rewrite Hc in Hl2. unfold wrap64 in Hl2 |- *.
    by rewrite Z.mod_mod in Hl2 by lia.
  - split; simpl;
      rewrite !written_app, ?written_respondEvents, ?written_notifyEvents;
      by rewrite ?app_nil_r.
Qed.

Lemma rebind_counter_shared_witness :
  exists s1 s2,
    handleDNS udpClient (query "a.rebind.test.") (configOf rebindHandlers)
      rebindHandlers (start (failing 0 (query "a.rebind.test."))) = Some (tt, s1)
    /\ handleDNS tcpClient (query "b.rebind.test.") (configOf rebindHandlers)
         rebindHandlers s1 = Some (tt, s2)
    /\ written (trace s2)
       = [respondMsg (query "a.rebind.test.") "10.0.0.1";
          respondMsg (query "b.rebind.test.") "10.0.0.2"].
Proof.
  destruct (rebind_counter_shared udpClient tcpClient (query "a.rebind.test.")
              (query "b.rebind.test.") (configOf rebindHandlers) rebindHandlers
              rebindHandlers "rebind.test" rebindTest
              {| Addrs := ["10.0.0.1"; "10.0.0.2"]%string |}
              (start (failing 0 (query "a.rebind.test.")))
              eq_refl eq_refl eq_refl eq_refl eq_refl)
    as (s1 & s2 & a1 & a2 & Hr1 & Hr2 & Hl1 & Hl2 & Hw1 & Hw2); [done|].
  injection Hl1 as <-. injection Hl2 as <-.
  exists s1, s2. split; [exact Hr1|]. split; [exact Hr2|].
  rewrite Hw2, Hw1. reflexivity.
Defined.

(** *** Concurrent rebind dispatches *)

Lemma LoadOrStore_counter ck m :
  default 0 (LoadOrStore ck m !! ck) = default 0 (m !! ck).
Proof.
  unfold LoadOrStore. destruct (m !! ck) eqn:H; [by rewrite H|].
  by rewrite lookup_insert_eq.
Qed.

Lemma interleave_indices ck len sched : forall loaded m,
  (interleave ck len sched loaded m).1.*2
  = map (fun i => wrap64 (default 0 (m !! ck) + Z.of_nat i) mod Z.of_nat len)
        (seq 0 (length (interleave ck len sched loaded m).1)).
Proof.
  induction sched as [|t sched IH]; intros loaded m; simpl; [done|].
  destruct (decide (t ∈ loaded)) as [Hin|Hout].
  - specialize (IH (loaded ∖ {[t]})
                  (<[ck := wrap64 (default 0 (m !! ck) + 1)]> m)).
    destruct (interleave ck len sched (loaded ∖ {[t]})
                (<[ck := wrap64 (default 0 (m !! ck) + 1)]> m)) as [used m''].
    cbv beta iota delta [fst] in *. simpl.
    rewrite rebindIndex_counter, Z.add_0_r. f_equal.
    etrans; [exact IH|]. rewrite lookup_insert_eq. simpl.
    rewrite <- seq_shift, map_map.
    apply map_ext. intros i. f_equal. unfold wrap64.
    rewrite Zplus_mod_idemp_l. f_equal. lia.
  - rewrite IH, LoadOrStore_counter. reflexivity.
Qed.

(** X11. However the [LoadOrStore] and [Add] steps of concurrent rebind
    dispatches for one key interleave, the dispatches use, in the order
    of their [Add] steps, the indices that as many successive dispatches
    use: none is used twice in a row of fewer than [2^64], none is left
    out.  From a key without counter these are [0], [1], [2], ... modulo
    the length of the list.  A dispatch alone is its two steps in a
    row. *)
Theorem concurrent_rebind_indices ck len sched m :
  (0 < len)%nat ->
  (interleave ck len sched ∅ m).1.*2
  = map (fun i => wrap64 (default 0 (m !! ck) + Z.of_nat i) mod Z.of_nat len)
        (seq 0 (length (interleave ck len sched ∅ m).1))
  /\ (m !! ck = None ->
      Z.of_nat (length (interleave ck len sched ∅ m).1) <= 2 ^ 64 ->
      (interleave ck len sched ∅ m).1.*2
      = map (fun i => Z.of_nat i mod Z.of_nat len)
            (seq 0 (length (interleave ck len sched ∅ m).1)))
  /\ (forall s,
        counterAdd1 ck s
        = Some ((Add1 ck (LoadOrStore ck (RebindMap s))).1,
                {| RebindMap := (Add1 ck (LoadOrStore ck (RebindMap s))).2;
                   upstream := upstream s; exchanges := exchanges s;
                   trace := trace s |})).
Proof.
  intros _. split; [apply interleave_indices|]. split.
  - intros Hfresh Hlen. rewrite interleave_indices, Hfresh. simpl.
    apply map_ext_in. intros i Hi%in_seq. f_equal.
    unfold wrap64. apply Z.mod_small. lia.
  - intros s. unfold counterAdd1, Add1. simpl.
    rewrite LoadOrStore_counter. do 3 f_equal.
    unfold LoadOrStore. destruct (RebindMap s !! ck); [done|].
    by rewrite insert_insert_eq.
Qed.

(** Two dispatches whose steps alternate, then a third. *)
Lemma concurrent_rebind_indices_witness :
  (interleave "rebind.test" 2 [7; 8; 8; 7; 9; 9]%nat ∅ ∅).1.*2 = [0; 1; 0]
  /\ (interleave "rebind.test" 2 [7; 8; 8; 7; 9; 9]%nat ∅ ∅).1.*1 = [8; 7; 9]%nat.
Proof.
  split; [|reflexivity].
  rewrite (proj1 (proj2 (concurrent_rebind_indices "rebind.test" 2
                           [7; 8; 8; 7; 9; 9]%nat ∅ (Nat.lt_0_succ 1)))).
  - reflexivity.
  - reflexivity.
  - by vm_compute.
Defined.
